(** * AutoCrop: crop-box detection by ray casting

    A shallow embedding of [CropDetector] (the detector class, with its
    module-level helpers [correctScanRatio], [getSideLength],
    [getSideScanLength] and [normalizeRayHits]) and of [util/color.js] and
    [util/math.js], followed by the properties of the specification.

    Numbers.  A JavaScript number is embedded as [num]: an exact rational
    ([Fin q]) or one of the three IEEE special values [PInf], [NInf], [NaN].
    Arithmetic on finite values is exact (binary64 rounding is abstracted
    away), and the special values follow the IEEE rules the source relies
    on: [x / 0] is an infinity or [NaN], [Math.min()] of no argument is
    [Infinity], every comparison with [NaN] is false.  There is one zero,
    read as [+0]: the zero divisors of the normalization are differences
    ([white - black]) and level values, which are never [-0].  The cropped
    ratio can be [-0] (a cropped width 0 over a negative cropped height):
    what is proved of the corrected dimensions is proved for a cropped
    ratio that is positive.

    What exactness leaves out.  Binary64 rounds every operation, and it
    overflows and underflows.  The statements about all inputs are phrased
    to hold under rounding as well: they compare, they follow the order of
    operations of the source, and they rest on facts that rounding keeps
    (an operation is monotone in each operand, a quotient of two positive
    numbers that is at most 1 stays at most 1); where that needs a range of
    the inputs, the range is a hypothesis.  A lemma that holds of the
    rationals only says so in its comment.  Equalities such as
    [calcBrightness(g, g, g) = g] or [x * (1 / x) = 1] are not claimed of
    the code: the module [Binary64] replays [calcBrightness],
    [normalizeRayHits] and [correctScanRatio] on binary64 floats and shows
    what the code returns there.  A probe position
    [Math.round(n * rayStep + offsetStart)] whose argument the code computes
    just below a half can be that half here, so a ray of the model may run
    one column beside the ray of the code: what is proved of [_findEdge]
    holds of whatever rays are cast.

    Effects.  A method runs in the monad [M]: it returns or throws, and it
    extends a trace of the slices taken from the pixel buffer and of the
    calls into the decoder.  The detector object is passed explicitly as
    [this]; a load returns the detector in its new state. *)

From Stdlib Require Import ZArith QArith Qround Qminmax Lqa Lia.
From Stdlib Require Import List String Ascii Strings.Byte Bool Qabs.
From Stdlib Require Import Floats.
Import ListNotations.

Set Implicit Arguments.

(** ** JavaScript numbers *)

Inductive num : Type :=
| Fin (q : Q)
| PInf
| NInf
| NaN.

Declare Scope num_scope.
Delimit Scope num_scope with num.
Bind Scope num_scope with num.

Definition Qlt_bool (x y : Q) : bool :=
  (Qnum x * QDen y <? Qnum y * QDen x)%Z.

(** Integers of the source ([info.width], loop counters) as numbers. *)
Definition ofZ (z : Z) : num := Fin (inject_Z z).

(** Sign of a number: [Gt] positive, [Lt] negative, [Eq] zero (or [NaN]). *)
Definition sign (x : num) : comparison :=
  match x with
  | Fin q => (Qnum q ?= 0)%Z
  | PInf => Gt
  | NInf => Lt
  | NaN => Eq
  end.

Definition mul_sign (a b : comparison) : comparison :=
  match a, b with
  | Eq, _ | _, Eq => Eq
  | Gt, Gt | Lt, Lt => Gt
  | _, _ => Lt
  end.

(** The infinity of a given sign; a zero sign ([0 * Infinity], [0 / 0]) is
    [NaN]. *)
Definition inf_of_sign (c : comparison) : num :=
  match c with
  | Gt => PInf
  | Lt => NInf
  | Eq => NaN
  end.

Definition nneg (x : num) : num :=
  match x with
  | Fin q => Fin (- q)
  | PInf => NInf
  | NInf => PInf
  | NaN => NaN
  end.

Definition nadd (x y : num) : num :=
  match x, y with
  | NaN, _ | _, NaN => NaN
  | Fin a, Fin b => Fin (a + b)
  | PInf, NInf | NInf, PInf => NaN
  | PInf, _ | _, PInf => PInf
  | NInf, _ | _, NInf => NInf
  end.

Definition nsub (x y : num) : num := nadd x (nneg y).

Definition nmul (x y : num) : num :=
  match x, y with
  | NaN, _ | _, NaN => NaN
  | Fin a, Fin b => Fin (a * b)
  | _, _ => inf_of_sign (mul_sign (sign x) (sign y))
  end.

Definition ndiv (x y : num) : num :=
  match x, y with
  | NaN, _ | _, NaN => NaN
  | Fin a, Fin b =>
      if Qeq_bool b 0 then inf_of_sign (sign x) else Fin (a / b)
  | Fin _, _ => Fin 0
  | _, Fin b =>
      inf_of_sign (mul_sign (sign x) (if Qeq_bool b 0 then Gt else sign y))
  | _, _ => NaN
  end.

(** [x < y]; false as soon as one side is [NaN]. *)
Definition nlt (x y : num) : bool :=
  match x, y with
  | NaN, _ | _, NaN => false
  | Fin a, Fin b => Qlt_bool a b
  | _, NInf => false
  | NInf, _ => true
  | PInf, _ => false
  | _, PInf => true
  end.

(** [x <= y]; false as soon as one side is [NaN]. *)
Definition nle (x y : num) : bool :=
  match x, y with
  | NaN, _ | _, NaN => false
  | Fin a, Fin b => Qle_bool a b
  | NInf, _ => true
  | _, PInf => true
  | _, _ => false
  end.

Definition ngt (x y : num) : bool := nlt y x.
Definition nge (x y : num) : bool := nle y x.

(** Strict equality [x === y] of two numbers. *)
Definition strict_eq (x y : num) : bool :=
  match x, y with
  | Fin a, Fin b => Qeq_bool a b
  | PInf, PInf | NInf, NInf => true
  | _, _ => false
  end.

Notation "x + y" := (nadd x y) : num_scope.
Notation "x - y" := (nsub x y) : num_scope.
Notation "x * y" := (nmul x y) : num_scope.
Notation "x / y" := (ndiv x y) : num_scope.
Notation "x <? y" := (nlt x y) : num_scope.
Notation "x <=? y" := (nle x y) : num_scope.
Notation "x >? y" := (ngt x y) : num_scope.
Notation "x >=? y" := (nge x y) : num_scope.
Notation "x === y" := (strict_eq x y) (at level 70, no associativity) : num_scope.
Notation "x !== y" := (negb (strict_eq x y)) (at level 70, no associativity) : num_scope.

(** [Math.floor], [Math.round] (halves go up), [Math.max], [Math.min]. *)
Definition Math_floor (x : num) : num :=
  match x with
  | Fin q => ofZ (Qfloor q)
  | _ => x
  end.

Definition Math_round (x : num) : num :=
  match x with
  | Fin q => ofZ (Qfloor (q + (1 # 2)))
  | _ => x
  end.

Definition Math_max (x y : num) : num :=
  match x, y with
  | NaN, _ | _, NaN => NaN
  | _, _ => if (x <? y)%num then y else x
  end.

Definition Math_min (x y : num) : num :=
  match x, y with
  | NaN, _ | _, NaN => NaN
  | _, _ => if (y <? x)%num then y else x
  end.

(** [Math.min(...xs)]: [Infinity] for no argument. *)
Definition Math_min_spread (xs : list num) : num :=
  fold_left Math_min xs PInf.

(** Equality of denotations: the same special value, or equal rationals.
    (Unlike [===], it relates [NaN] to itself.) *)
Definition num_eq (x y : num) : Prop :=
  match x, y with
  | Fin a, Fin b => a == b
  | PInf, PInf | NInf, NInf | NaN, NaN => True
  | _, _ => False
  end.

Infix "≡" := num_eq (at level 70, no associativity).

(** ** Buffers and the host platform *)

(** [info] of a decoded image: [{width, height, channels}]. *)
Record Info : Type := {
  width : Z;
  height : Z;
  channels : Z
}.

(** A Node [Buffer]: its [length], and the byte at each index below it. *)
Record Buffer : Type := {
  buf_length : Z;
  buf_byte : Z -> byte
}.

(** The buffer that holds the bytes of a list. *)
Definition Buffer_of_list (l : list byte) : Buffer := {|
  buf_length := Z.of_nat (List.length l);
  buf_byte := fun i => nth (Z.to_nat i) l x00
|}.

Inductive sharp_input : Type :=
| FromBuffer (buffer : Buffer)
| FromFile (filepath : string).

(** What the source takes from its environment: [Math.pow] on a positive
    base with a fractional exponent (its value is in general not a
    rational, so it stays a parameter), the [sharp] decoder with the types
    of its metadata and of its failures, and Node's base64 [Buffer.from]. *)
Class Platform : Type := {
  pow_frac : Q -> Q -> Q;
  Metadata : Type;
  SharpError : Type;
  sharp_metadata : sharp_input -> SharpError + Metadata;
  sharp_raw : sharp_input -> SharpError + (Buffer * Info);
  Buffer_from_base64 : string -> Buffer
}.

(** [q] is an integer; an odd integer. *)
Definition Qis_integer (q : Q) : bool := (Zpos (Qden (Qred q)) =? 1)%Z.

Definition Qis_odd_integer (q : Q) : bool :=
  Qis_integer q && Z.odd (Qnum (Qred q)).

(** [Math.pow(base, exponent)], case by case as ECMAScript lists them. *)
Definition Math_pow `{Platform} (base exponent : num) : num :=
  match exponent with
  | NaN => NaN
  | Fin e =>
      if Qeq_bool e 0 then Fin 1
      else
        match base with
        | NaN => NaN
        | PInf => if Qlt_bool 0 e then PInf else Fin 0
        | NInf =>
            if Qlt_bool 0 e
            then (if Qis_odd_integer e then NInf else PInf)
            else Fin 0
        | Fin b =>
            if Qeq_bool b 0
            then (if Qlt_bool 0 e then Fin 0 else PInf)
            else if Qis_integer e then Fin (Qpower b (Qnum (Qred e)))
            else if Qlt_bool b 0 then NaN
            else Fin (pow_frac b e)
        end
  | PInf =>
      match base with
      | NaN => NaN
      | Fin b =>
          if Qlt_bool 1 (Qabs.Qabs b) then PInf
          else if Qeq_bool (Qabs.Qabs b) 1 then NaN
          else Fin 0
      | _ => PInf
      end
  | NInf =>
      match base with
      | NaN => NaN
      | Fin b =>
          if Qlt_bool 1 (Qabs.Qabs b) then Fin 0
          else if Qeq_bool (Qabs.Qabs b) 1 then NaN
          else PInf
      | _ => Fin 0
      end
  end.

(** ** util/math.js *)

(** [clamp(value, min, max)]. *)
Definition clamp (value min max : num) : num :=
  Math_max min (Math_min max value).

(** [clamp8(value)]. *)
Definition clamp8 (value : num) : num :=
  clamp value (ofZ 0) (ofZ 255).

(** ** util/color.js *)

(** [calcBrightness(r, g, b)], Rec. 601 weights. *)
Definition calcBrightness (r g b : num) : num :=
  ((Fin (299 # 1000) * r) + (Fin (587 # 1000) * g) + (Fin (114 # 1000) * b))%num.

(** [calcNormalizedColor(value, blackPoint, whitePoint, gammaValue)]. *)
Definition calcNormalizedColor `{Platform}
    (value blackPoint whitePoint gammaValue : num) : num :=
  let black := clamp8 blackPoint in
  let white := clamp (clamp8 whitePoint) black (ofZ 255) in
  let adjusted :=
    Math_pow ((clamp8 value - black) / (white - black))%num
             (ofZ 1 / gammaValue)%num in
  clamp8 (adjusted * ofZ 255)%num.

(** [calcNormalizedBrightness(r, g, b, blackPoint, whitePoint, gammaValue)]. *)
Definition calcNormalizedBrightness `{Platform}
    (r g b blackPoint whitePoint gammaValue : num) : num :=
  calcBrightness
    (calcNormalizedColor r blackPoint whitePoint gammaValue)
    (calcNormalizedColor g blackPoint whitePoint gammaValue)
    (calcNormalizedColor b blackPoint whitePoint gammaValue).

(** ** Errors, effects and the result monad

    A method either returns or throws (an [async] method: its promise is
    fulfilled or rejected).  The trace records the accesses the
    specification speaks about: every slice taken from the pixel buffer and
    every call into the decoding facilities. *)

Inductive error `{Platform} : Type :=
| Error (message : string)
| InvalidSide (side : Z)          (* Error(`Invalid side: ${side} (w=.., h=..)`) *)
| TypeError (message : string)
| RangeError (message : string)
| Rejected (e : SharpError).      (* a failure of sharp, passed on as it is *)

Inductive event : Type :=
| PixelRead (start stop : num)    (* data.slice(start, stop) *)
| Base64Decode (data : string)    (* Buffer.from(data, 'base64') *)
| SharpMetadata (input : sharp_input)
| SharpRaw (input : sharp_input).

Inductive result `{Platform} (A : Type) : Type :=
| Ok (a : A)
| Throw (e : error).

Arguments Ok {_ _} a.
Arguments Throw {_ _} e.

(** The trace is kept newest event first. *)
Definition M `{Platform} (A : Type) : Type :=
  list event -> result A * list event.

Definition ret `{Platform} {A} (a : A) : M A :=
  fun tr => (Ok a, tr).

Definition throw `{Platform} {A} (e : error) : M A :=
  fun tr => (Throw e, tr).

Definition bind `{Platform} {A B} (m : M A) (k : A -> M B) : M B :=
  fun tr =>
    match m tr with
    | (Ok a, tr') => k a tr'
    | (Throw e, tr') => (Throw e, tr')
    end.

Definition tell `{Platform} (e : event) : M unit :=
  fun tr => (Ok tt, e :: tr).

Definition lift `{Platform} {A} (r : result A) : M A :=
  fun tr => (r, tr).

Notation "x <- m ;; k" := (bind m (fun x => k))
  (at level 61, m at next level, right associativity).
Notation "' pat <- m ;; k" := (bind m (fun x => match x with pat => k end))
  (at level 61, pat pattern, m at next level, right associativity).
Notation "m ;;; k" := (bind m (fun _ => k))
  (at level 61, right associativity).

Fixpoint mapM `{Platform} {A B} (f : A -> M B) (xs : list A) : M (list B) :=
  match xs with
  | [] => ret []
  | x :: xs' => y <- f x ;; ys <- mapM f xs' ;; ret (y :: ys)
  end.

(** Reading a property of [undefined] throws. *)
Definition defined `{Platform} {A} (what : string) (o : option A) : M A :=
  match o with
  | Some a => ret a
  | None => throw (TypeError what)
  end.

(** ** Side geometry (module-level helpers of the detector) *)

Definition SIDE_TOP : Z := 1.
Definition SIDE_RIGHT : Z := 2.
Definition SIDE_BOTTOM : Z := 3.
Definition SIDE_LEFT : Z := 4.

(** [correctScanRatio(scanLength, imageRatio, canvasRatio, applyCorrection)]. *)
Definition correctScanRatio (scanLength imageRatio canvasRatio : num)
    (applyCorrection : bool) : num :=
  if negb applyCorrection || (imageRatio === canvasRatio)%num
  then scanLength
  else
    let ratioDifference :=
      if (imageRatio >? canvasRatio)%num
      then (canvasRatio / imageRatio)%num
      else (imageRatio / canvasRatio)%num in
    (scanLength * ratioDifference)%num.

(** [getSideLength(width, height, side)]: the pair is returned untouched,
    whatever its components are. *)
Definition getSideLength `{Platform} {A} (width height : A) (side : Z)
    : result (A * A) :=
  if (side =? SIDE_TOP)%Z || (side =? SIDE_BOTTOM)%Z then Ok (width, height)
  else if (side =? SIDE_LEFT)%Z || (side =? SIDE_RIGHT)%Z then Ok (height, width)
  else Throw (InvalidSide side).

(** [getSideScanLength(width, height, imageRatio, canvasRatio, side)]. *)
Definition getSideScanLength `{Platform}
    (width height imageRatio canvasRatio : num) (side : Z) : result num :=
  if (side =? SIDE_TOP)%Z || (side =? SIDE_BOTTOM)%Z
  then Ok (correctScanRatio width imageRatio canvasRatio
             (imageRatio <? canvasRatio)%num)
  else if (side =? SIDE_LEFT)%Z || (side =? SIDE_RIGHT)%Z
  then Ok (correctScanRatio height imageRatio canvasRatio
             (imageRatio >? canvasRatio)%num)
  else Throw (InvalidSide side).

(** ** Ray hits *)

(** A ray hit [[a, normalized]]: depth and normalized brightness. *)
Definition hit : Type := (num * num)%type.

(** The locals of [normalizeRayHits], one definition each. *)
Definition hitLevel (h : hit) : num := (snd h / ofZ 255)%num.

Definition hitDirection (a b : hit) : bool := (hitLevel a >? hitLevel b)%num.

Definition hitFactor (a b : hit) : num :=
  if hitDirection a b then (ofZ 1 / hitLevel a)%num else (ofZ 1 / hitLevel b)%num.

Definition hitWeight (a b : hit) : num :=
  let aLevelNormalized := (hitLevel a * hitFactor a b)%num in
  let bLevelNormalized := (hitLevel b * hitFactor a b)%num in
  (bLevelNormalized * aLevelNormalized)%num.

(** [normalizeRayHits(rayHits)] on the first two hits [a] and [b]. *)
Definition interpolate (a b : hit) : num :=
  let aPos := fst a in
  let bPos := fst b in
  let diff := (bPos - aPos)%num in
  let weight := hitWeight a b in
  if hitDirection a b
  then (bPos - (diff * (ofZ 1 - weight)))%num
  else (aPos + (diff * (ofZ 1 - weight)))%num.

(** [normalizeRayHits(rayHits)]: [const [a, b] = rayHits] leaves [b]
    undefined on a shorter list, and [b[0]] then throws. *)
Definition normalizeRayHits `{Platform} (rayHits : list hit) : result num :=
  match rayHits with
  | a :: b :: _ => Ok (interpolate a b)
  | _ => Throw (TypeError "Cannot read properties of undefined")
  end.

(** ** The detector *)

(** [this.settings]; every setting is a finite number. *)
Record Settings : Type := {
  rayAmount : Q;
  rayAmountMin : Q;
  rayMargin : Q;
  rayMaxDepth : Q;
  rayThreshold : Q;
  rayBlack : Q;
  rayWhite : Q;
  rayGamma : Q
}.

Definition default_settings : Settings := {|
  rayAmount := 25 # 1000;
  rayAmountMin := 15;
  rayMargin := 1 # 10;
  rayMaxDepth := 4 # 10;
  rayThreshold := 15;
  rayBlack := 6;
  rayWhite := 60;
  rayGamma := 1
|}.

(** The object [{data, info, metadata}] that a load stores in [this.data]. *)
Record ImageData `{Platform} : Type := {
  data : Buffer;
  info : Info;
  metadata : Metadata
}.

(** The fields of a [CropDetector]; [image] is [this.data], [None] while it
    is undefined. *)
Record CropDetector `{Platform} : Type := {
  filepath : option string;
  image : option ImageData;
  isLoaded : bool;
  imageRatio : num;
  settings : Settings
}.

(** [new CropDetector({aspectRatio})]: [aspectRatio ?? 0]. *)
Definition constructor `{Platform} (aspectRatio : option num) : CropDetector := {|
  filepath := None;
  image := None;
  isLoaded := false;
  imageRatio := match aspectRatio with Some r => r | None => ofZ 0 end;
  settings := default_settings
|}.

(** *** The pixel buffer *)

(** [Math.trunc] on a rational. *)
Definition Qtrunc (q : Q) : Z :=
  if Qlt_bool q 0 then Qceiling q else Qfloor q.

(** Node's [adjustOffset(offset, length)], which [Buffer.prototype.slice]
    applies to both of its bounds. *)
Definition adjustOffset (offset : num) (length : Z) : Z :=
  match offset with
  | NaN => 0
  | PInf => length
  | NInf => 0
  | Fin q =>
      let o := Qtrunc q in
      if (o <? 0)%Z then Z.max (o + length) 0
      else if (o <? length)%Z then o
      else length
  end.

(** [data.slice(start, end)] on a [Buffer]: the bytes of the indices from
    the adjusted start up to the adjusted end. *)
Definition Buffer_slice (buf : Buffer) (start stop : num) : list byte :=
  let srcLength := buf_length buf in
  let s := adjustOffset start srcLength in
  let e := adjustOffset stop srcLength in
  let newLength := if (s <? e)%Z then (e - s)%Z else 0%Z in
  map (fun k => buf_byte buf (s + Z.of_nat k)) (List.seq 0 (Z.to_nat newLength)).

(** [rgb[i]] as a number: a byte, or [undefined], which every arithmetic
    use and [Math.min] turn into [NaN]. *)
Definition channel (rgb : list byte) (i : nat) : num :=
  match nth_error rgb i with
  | Some c => ofZ (Z.of_N (Byte.to_N c))
  | None => NaN
  end.

(** The [offset] of [_getPixelAt(x, y)]. *)
Definition pixelOffset (info : Info) (x y : num) : num :=
  let ch := ofZ (channels info) in
  ((x * ch) + (y * (ofZ (width info) * ch)))%num.

Section Methods.

Context `{Platform}.
Variable this : CropDetector.

(** [_getPixelAt(x, y)]. *)
Definition _getPixelAt (x y : num) : M (list byte) :=
  im <- defined "this.data" (image this) ;;
  let offset := pixelOffset (info im) x y in
  let stop := (offset + ofZ (channels (info im)))%num in
  tell (PixelRead offset stop) ;;;
  ret (Buffer_slice (data im) offset stop).

(** [_getPixelFromEdge(side, b, a)]; [None] is the [undefined] that falls
    out of the method for any other side. *)
Definition _getPixelFromEdge (side : Z) (b a : num) : M (option (list byte)) :=
  im <- defined "this.data" (image this) ;;
  if (side =? SIDE_TOP)%Z then
    rgb <- _getPixelAt b a ;; ret (Some rgb)
  else if (side =? SIDE_BOTTOM)%Z then
    rgb <- _getPixelAt b (ofZ (height (info im)) - ofZ 1 - a)%num ;; ret (Some rgb)
  else if (side =? SIDE_LEFT)%Z then
    rgb <- _getPixelAt a b ;; ret (Some rgb)
  else if (side =? SIDE_RIGHT)%Z then
    rgb <- _getPixelAt (ofZ (width (info im)) - ofZ 1 - a)%num b ;; ret (Some rgb)
  else ret None.

(** [_getPixelBrightnessAt(x, y)]. *)
Definition _getPixelBrightnessAt (x y : num) : M num :=
  rgb <- _getPixelAt x y ;;
  ret (calcBrightness (channel rgb 0) (channel rgb 1) (channel rgb 2)).

(** [_getBgBrightness()]: the mean of the 2x2 block in the top left corner. *)
Definition _getBgBrightness : M num :=
  p00 <- _getPixelBrightnessAt (ofZ 0) (ofZ 0) ;;
  p10 <- _getPixelBrightnessAt (ofZ 1) (ofZ 0) ;;
  p01 <- _getPixelBrightnessAt (ofZ 0) (ofZ 1) ;;
  p11 <- _getPixelBrightnessAt (ofZ 1) (ofZ 1) ;;
  let pixel2x2 := [p00; p10; p01; p11] in
  ret (fold_left nadd pixel2x2 (ofZ 0) / ofZ (Z.of_nat (List.length pixel2x2)))%num.

(** The normalized brightness [_castEdgeRay] computes from a pixel. *)
Definition rayLevel (pixel : list byte) (bgBrightness : num) : num :=
  let s := settings this in
  calcNormalizedBrightness (channel pixel 0) (channel pixel 1) (channel pixel 2)
    (Fin (rayBlack s) + bgBrightness)%num (Fin (rayWhite s)) (Fin (rayGamma s)).

(** One turn of the loop of [_castEdgeRay] on the hit list: push, clear. *)
Definition rayStepHits (rayHits : list hit) (a : Z) (normalized : num) : list hit :=
  let rayThreshold := Fin (rayThreshold (settings this)) in
  let rayHits :=
    if (normalized >? rayThreshold)%num
    then rayHits ++ [(ofZ a, normalized)]
    else rayHits in
  if (normalized <=? rayThreshold)%num && (0 <? List.length rayHits)%nat
  then []
  else rayHits.

(** The loop of [_castEdgeRay], from depth [a] with [remaining] depths left
    below [maxDepth]: [a >= maxDepth] is [remaining = 0].  It yields the hit
    list that reached two hits, or [None] at the [break]. *)
Fixpoint _castEdgeRay_loop (remaining : nat) (b : num) (side : Z)
    (bgBrightness : num) (rayHits : list hit) (a : Z) : M (option (list hit)) :=
  match remaining with
  | O => ret None
  | S remaining' =>
      pixel <- _getPixelFromEdge side b (ofZ a) ;;
      pixel <- defined "pixel" pixel ;;
      let normalized := rayLevel pixel bgBrightness in
      let rayHits := rayStepHits rayHits a normalized in
      if (2 <=? List.length rayHits)%nat then ret (Some rayHits)
      else _castEdgeRay_loop remaining' b side bgBrightness rayHits (a + 1)
  end.

(** The two hits of a ray, if it finds them within [maxDepth]. *)
Definition _castEdgeRay_hits (b : num) (side : Z) (maxDepth : Z)
    (bgBrightness : num) : M (option (list hit)) :=
  _castEdgeRay_loop (Z.to_nat maxDepth) b side bgBrightness [] 0.

(** [_castEdgeRay(b, side, maxDepth, bgBrightness)]; [None] is [null]. *)
Definition _castEdgeRay (b : num) (side : Z) (maxDepth : Z)
    (bgBrightness : num) : M (option num) :=
  found <- _castEdgeRay_hits b side maxDepth bgBrightness ;;
  match found with
  | Some rayHits => pos <- lift (normalizeRayHits rayHits) ;; ret (Some pos)
  | None => ret None
  end.

(** [new Array(len)]: a [RangeError] unless [len] is an integer in
    [[0, 2^32 - 1]]. *)
Definition new_Array (len : num) : M nat :=
  match len with
  | Fin q =>
      if Qis_integer q && Qle_bool 0 q && Qlt_bool q (inject_Z (2 ^ 32))
      then ret (Z.to_nat (Qfloor q))
      else throw (RangeError "Invalid array length")
  | _ => throw (RangeError "Invalid array length")
  end.

(** [.filter(n => n !== null)]. *)
Definition filter_not_null (rays : list (option num)) : list num :=
  flat_map (fun ray => match ray with Some e => [e] | None => [] end) rays.

(** The first half of [_findEdge(side, bgBrightness)]: the scan geometry
    and the [map] that casts the rays, one result per ray.  [maxDepth] is
    the floor of a product of two finite numbers, hence an integer. *)
Definition _findEdge_rays (side : Z) (bgBrightness : num) : M (list (option num)) :=
  im <- defined "this.data" (image this) ;;
  let info := info im in
  let s := settings this in
  let canvasRatio := (ofZ (width info) / ofZ (height info))%num in
  let imageRatio :=
    if (imageRatio this !== ofZ 0)%num then imageRatio this else canvasRatio in
  sideLength <- lift (getSideLength (width info) (height info) side) ;;
  scanLength <- lift (getSideScanLength (ofZ (width info)) (ofZ (height info))
                        imageRatio canvasRatio side) ;;
  let offsetStart :=
    ((scanLength * Fin (rayMargin s))
     + ((ofZ (fst sideLength) - scanLength) / ofZ 2))%num in
  let offsetEnd := (ofZ (fst sideLength) - offsetStart)%num in
  let rayNumber :=
    Math_max (Math_floor (scanLength * Fin (rayAmount s))%num)
             (Fin (rayAmountMin s)) in
  let rayStep := (offsetEnd / rayNumber)%num in
  let maxDepth := Qfloor (inject_Z (snd sideLength) * rayMaxDepth s) in
  len <- new_Array rayNumber ;;
  mapM (fun n =>
          let b := Math_round ((ofZ (Z.of_nat n) * rayStep) + offsetStart)%num in
          _castEdgeRay b side maxDepth bgBrightness)
       (List.seq 0 len).

(** [_findEdge(side, bgBrightness)]: the rays, then [filter] and
    [Math.min(...sideEdges)]. *)
Definition _findEdge (side : Z) (bgBrightness : num) : M num :=
  rays <- _findEdge_rays side bgBrightness ;;
  let sideEdges := filter_not_null rays in
  ret (Math_min_spread sideEdges).

(** The [edges] object. *)
Record Edges : Type := {
  top : num;
  right : num;
  bottom : num;
  left : num
}.

(** [_findEdges(bgBrightness)]. *)
Definition _findEdges (bgBrightness : num) : M Edges :=
  t <- _findEdge SIDE_TOP bgBrightness ;;
  r <- _findEdge SIDE_RIGHT bgBrightness ;;
  b <- _findEdge SIDE_BOTTOM bgBrightness ;;
  l <- _findEdge SIDE_LEFT bgBrightness ;;
  ret {| top := t; right := r; bottom := b; left := l |}.

(** The object [detectCropBox] returns, flattened: [source], [cropped],
    [target] and [image]. *)
Record CropBox : Type := {
  source_width : num;
  source_height : num;
  source_aspectRatio : num;
  cropped_width : num;
  cropped_height : num;
  cropped_aspectRatio : num;
  cropped_correctedWidth : num;
  cropped_correctedHeight : num;
  cropped_edges : Edges;
  target_aspectRatio : num;
  image_backgroundBrightness : num
}.

(** The object literal at the end of [detectCropBox]. *)
Definition cropBox (info : Info) (edges : Edges) (bgBrightness : num) : CropBox :=
  let w := ofZ (width info) in
  let h := ofZ (height info) in
  let croppedWidth := (w - left edges - right edges)%num in
  let croppedHeight := (h - top edges - bottom edges)%num in
  let croppedRatio := (croppedWidth / croppedHeight)%num in
  {| source_width := w;
     source_height := h;
     source_aspectRatio := (w / h)%num;
     cropped_width := croppedWidth;
     cropped_height := croppedHeight;
     cropped_aspectRatio := croppedRatio;
     cropped_correctedWidth :=
       if (imageRatio this >? croppedRatio)%num
       then (w * (imageRatio this / croppedRatio))%num
       else w;
     cropped_correctedHeight :=
       if (imageRatio this >? croppedRatio)%num
       then h
       else (h * (imageRatio this / croppedRatio))%num;
     cropped_edges := edges;
     target_aspectRatio := imageRatio this;
     image_backgroundBrightness := bgBrightness |}.

(** [detectCropBox()]. *)
Definition detectCropBox : M CropBox :=
  if negb (isLoaded this) then throw (Error "No image loaded.")
  else
    im <- defined "this.data" (image this) ;;
    bgBrightness <- _getBgBrightness ;;
    edges <- _findEdges bgBrightness ;;
    ret (cropBox (info im) edges bgBrightness).

End Methods.

(** *** Loading *)

(** [.] of a regular expression matches any character but a line
    terminator.  Strings are over the 8-bit alphabet of [ascii]; line feed
    and carriage return are its line terminators. *)
Definition is_line_terminator (c : ascii) : bool :=
  (Ascii.eqb c "010" || Ascii.eqb c "013")%char.

(** [s] without the literal [p] in front of it. *)
Fixpoint strip_prefix (p s : string) : option string :=
  match p, s with
  | EmptyString, _ => Some s
  | String a p', String c s' => if Ascii.eqb a c then strip_prefix p' s' else None
  | String _ _, EmptyString => None
  end.

(** The rest of [/^data:(.+?);base64,/] once [.+?] holds [group]: close
    with the literal if it is there, if not take one more character into
    the group.  The result is the group. *)
Fixpoint match_lazy_group (group : string) (rest : string) : option string :=
  match strip_prefix ";base64," rest with
  | Some _ => Some group
  | None =>
      match rest with
      | String c rest' =>
          if is_line_terminator c then None
          else match_lazy_group (group ++ String c EmptyString) rest'
      | EmptyString => None
      end
  end.

(** [base64.match(/^data:(.+?);base64,/)]: the pair of [mime[0]], the text
    matched, and [mime[1]], the group; [None] is [null]. *)
Definition match_data_uri (base64 : string) : option (string * string) :=
  match strip_prefix "data:" base64 with
  | Some (String c rest) =>
      if is_line_terminator c then None
      else
        match match_lazy_group (String c EmptyString) rest with
        | Some group => Some ("data:" ++ group ++ ";base64,", group)%string
        | None => None
        end
  | _ => None
  end.

(** [s.slice(n)] for [0 <= n]. *)
Fixpoint string_slice (n : nat) (s : string) : string :=
  match n, s with
  | S n', String _ s' => string_slice n' s'
  | _, _ => s
  end.

Section Loading.

Context `{Platform}.
Variable this : CropDetector.

(** [await sharp(input).metadata()]. *)
Definition sharp_metadata_call (input : sharp_input) : M Metadata :=
  tell (SharpMetadata input) ;;;
  match sharp_metadata input with
  | inr m => ret m
  | inl e => throw (Rejected e)
  end.

(** [await sharp(input).raw().toBuffer({resolveWithObject: true})]. *)
Definition sharp_raw_call (input : sharp_input) : M (Buffer * Info) :=
  tell (SharpRaw input) ;;;
  match sharp_raw input with
  | inr r => ret r
  | inl e => throw (Rejected e)
  end.

(** The three assignments that end a load; the detector is returned in its
    new state. *)
Definition loaded (path : string) (d : Buffer) (i : Info) (m : Metadata)
    : CropDetector := {|
  filepath := Some path;
  image := Some {| data := d; info := i; metadata := m |};
  isLoaded := true;
  imageRatio := imageRatio this;
  settings := settings this
|}.

(** [loadImageBuffer(buffer)]. *)
Definition loadImageBuffer (buffer : Buffer) : M CropDetector :=
  m <- sharp_metadata_call (FromBuffer buffer) ;;
  '(d, i) <- sharp_raw_call (FromBuffer buffer) ;;
  ret (loaded "<buffer>" d i m).

(** [loadImageFile(filepath)]. *)
Definition loadImageFile (path : string) : M CropDetector :=
  m <- sharp_metadata_call (FromFile path) ;;
  '(d, i) <- sharp_raw_call (FromFile path) ;;
  ret (loaded path d i m).

(** [loadImageBase64(base64)]. *)
Definition loadImageBase64 (base64 : string) : M CropDetector :=
  match match_data_uri base64 with
  | None => throw (Error "Not a base64 image string.")
  | Some mime =>
      let data := string_slice (String.length (fst mime)) base64 in
      tell (Base64Decode data) ;;;
      let buffer := Buffer_from_base64 data in
      loadImageBuffer buffer
  end.

End Loading.

(** ** The arithmetic helpers on binary64 floats

    Rocq's primitive floats are the binary64 numbers of JavaScript, with
    the same rounding to nearest, ties to even, of [+], [-], [*] and [/];
    a decimal literal stands for the nearest float, as in JavaScript.  The
    three helpers below are the source's, operation by operation. *)
Module Binary64.

#[local] Set Warnings "-inexact-float".

(** The float of an integer of [[0, 2^53]]. *)
Definition ofZ (z : Z) : float := PrimFloat.of_uint63 (Uint63.of_Z z).

(** [calcBrightness(r, g, b)]. *)
Definition calcBrightness (r g b : float) : float :=
  ((0.299 * r) + (0.587 * g) + (0.114 * b))%float.

(** A ray hit [[a, normalized]]. *)
Definition hit : Type := (float * float)%type.

(** The locals of [normalizeRayHits], one definition each. *)
Definition hitLevel (h : hit) : float := (snd h / 255)%float.

Definition hitDirection (a b : hit) : bool := (hitLevel b <? hitLevel a)%float.

Definition hitFactor (a b : hit) : float :=
  if hitDirection a b then (1 / hitLevel a)%float else (1 / hitLevel b)%float.

Definition hitWeight (a b : hit) : float :=
  let aLevelNormalized := (hitLevel a * hitFactor a b)%float in
  let bLevelNormalized := (hitLevel b * hitFactor a b)%float in
  (bLevelNormalized * aLevelNormalized)%float.

(** [normalizeRayHits(rayHits)]; [None] where reading [a[0]] or [b[0]] of
    a missing hit throws. *)
Definition normalizeRayHits (rayHits : list hit) : option float :=
  match rayHits with
  | a :: b :: _ =>
      let aPos := fst a in
      let bPos := fst b in
      let diff := (bPos - aPos)%float in
      let weight := hitWeight a b in
      Some (if hitDirection a b
            then (bPos - (diff * (1 - weight)))%float
            else (aPos + (diff * (1 - weight)))%float)
  | _ => None
  end.

(** [correctScanRatio(scanLength, imageRatio, canvasRatio, applyCorrection)]. *)
Definition correctScanRatio (scanLength imageRatio canvasRatio : float)
    (applyCorrection : bool) : float :=
  if negb applyCorrection || (imageRatio =? canvasRatio)%float
  then scanLength
  else
    let ratioDifference :=
      if (canvasRatio <? imageRatio)%float
      then (canvasRatio / imageRatio)%float
      else (imageRatio / canvasRatio)%float in
    (scanLength * ratioDifference)%float.

End Binary64.

(** ** Sample images *)

(** A [w] by [h] RGB canvas, row-major, whose pixel at [(x, y)] is the
    grey [level x y]: the byte at index [i] belongs to the pixel [i / 3],
    in column [(i / 3) mod w] of row [(i / 3) / w]. *)
Definition grey_canvas (w h : nat) (level : nat -> nat -> byte) : Buffer := {|
  buf_length := Z.of_nat w * Z.of_nat h * 3;
  buf_byte := fun i =>
    let p := (i / 3)%Z in
    level (Z.to_nat (p mod Z.of_nat w)) (Z.to_nat (p / Z.of_nat w))
|}.

(** A frame of [border] pixels of the grey [frame] around an interior of
    the grey [inner]. *)
Definition framed_pixel (w h border : nat) (frame inner : byte) (x y : nat) : byte :=
  if ((border <=? x) && (x <? w - border) && (border <=? y) && (y <? h - border))%nat
  then inner else frame.

Definition framed_canvas (w h border : nat) (frame inner : byte) : Buffer :=
  grey_canvas w h (framed_pixel w h border frame inner).

Definition rgb_info (w h : nat) : Info :=
  {| width := Z.of_nat w; height := Z.of_nat h; channels := 3 |}.

(** A detector on which a load of the given raw image has succeeded. *)
Definition detector_with `{Platform} (aspectRatio : option num)
    (d : Buffer) (i : Info) (m : Metadata) : CropDetector :=
  loaded (constructor aspectRatio) "<buffer>" d i m.

(** A host without a decoder: every call into [sharp] is rejected. *)
Definition bare_platform : Platform := {|
  pow_frac := fun _ _ => 0;
  Metadata := unit;
  SharpError := string;
  sharp_metadata := fun _ => inl "Input buffer contains unsupported image format"%string;
  sharp_raw := fun _ => inl "Input buffer contains unsupported image format"%string;
  Buffer_from_base64 := fun _ => Buffer_of_list []
|}.

(** A 20 by 20 canvas: a black frame of 2 pixels around a white interior,
    handed to a detector built for the aspect ratio 1/2. *)
Definition narrow_target_image : @ImageData bare_platform :=
  @Build_ImageData bare_platform
    (framed_canvas 20 20 2 x00 xff) (rgb_info 20 20) tt.

Definition narrow_target_detector : @CropDetector bare_platform :=
  @detector_with bare_platform (Some (Fin (1 # 2)))
    (data narrow_target_image) (info narrow_target_image)
    (metadata narrow_target_image).

(** A 20 by 20 canvas that is black all over. *)
Definition all_black_detector `{Platform} (m : Metadata) : CropDetector :=
  detector_with None (framed_canvas 20 20 0 x00 x00) (rgb_info 20 20) m.

(** A 100 by 100 canvas with a frame of 10 pixels, for the target aspect
    ratio 1: a white frame around a black interior, and a black frame
    around a white interior. *)
Definition white_frame_detector `{Platform} (m : Metadata) : CropDetector :=
  detector_with (Some (ofZ 1)) (framed_canvas 100 100 10 xff x00)
    (rgb_info 100 100) m.

Definition black_frame_detector `{Platform} (m : Metadata) : CropDetector :=
  detector_with (Some (ofZ 1)) (framed_canvas 100 100 10 x00 xff)
    (rgb_info 100 100) m.

(** The same canvases on the host without a decoder. *)
Definition bare_all_black : @CropDetector bare_platform :=
  @all_black_detector bare_platform tt.

Definition bare_white_frame : @CropDetector bare_platform :=
  @white_frame_detector bare_platform tt.

(** A 10 by 10 canvas of the grey 94 whose column 5 starts, from the top,
    with white, the grey 100, white. *)
Definition streak_pixel (x y : nat) : byte :=
  match x, y with
  | 5%nat, 0%nat => xff
  | 5%nat, 1%nat => x64
  | 5%nat, 2%nat => xff
  | _, _ => x5e
  end.

Definition streak_detector `{Platform} (m : Metadata) : CropDetector :=
  detector_with None (grey_canvas 10 10 streak_pixel) (rgb_info 10 10) m.

(** A host whose decoder answers every input with the 20 by 20 canvas of a
    black frame of 2 pixels around a white interior. *)
Definition canvas_platform : Platform := {|
  pow_frac := fun _ _ => 0;
  Metadata := unit;
  SharpError := string;
  sharp_metadata := fun _ => inr tt;
  sharp_raw := fun _ => inr (framed_canvas 20 20 2 x00 xff, rgb_info 20 20);
  Buffer_from_base64 := fun _ => Buffer_of_list []
|}.

(** * Vocabulary of the specification *)

(** [x] is a number of [[0, 255]]. *)
Definition in_byte_range (x : num) : Prop :=
  match x with
  | Fin q => 0 <= q <= 255
  | _ => False
  end.

(** A call of one of the three load methods. *)
Inductive load_call : Type :=
| LoadBuffer (buffer : Buffer)
| LoadFile (path : string)
| LoadBase64 (base64 : string).

(** The load method a call stands for. *)
Definition load `{Platform} (this : CropDetector) (c : load_call) : M CropDetector :=
  match c with
  | LoadBuffer buffer => loadImageBuffer this buffer
  | LoadFile path => loadImageFile this path
  | LoadBase64 base64 => loadImageBase64 this base64
  end.

(** A detector on which no load has succeeded, with the trace of its life
    so far: it comes from the constructor, and every load called on it
    since has thrown (which leaves its fields as they were). *)
Inductive never_loaded `{Platform} : CropDetector -> list event -> Prop :=
| never_loaded_new (aspectRatio : option num) :
    never_loaded (constructor aspectRatio) []
| never_loaded_failed (this : CropDetector) (c : load_call) (e : error)
    (tr tr' : list event) :
    never_loaded this tr ->
    load this c tr = (Throw e, tr') ->
    never_loaded this tr'.

(** The event is a slice taken from the pixel buffer. *)
Definition is_pixel_read (ev : event) : Prop :=
  match ev with
  | PixelRead _ _ => True
  | _ => False
  end.

(** The text a data URI carries between [data:] and [;base64,]: not empty,
    and on one line. *)
Definition mime_text (mime : string) : Prop :=
  mime <> EmptyString /\
  Forall (fun c => is_line_terminator c = false) (list_ascii_of_string mime).

(** [s] begins with a literal [data:<mime>;base64,]. *)
Definition has_data_uri_prefix (s : string) : Prop :=
  exists mime rest : string,
    mime_text mime /\ s = ("data:" ++ mime ++ ";base64," ++ rest)%string.

(** [x] is a number within [tolerance] of [expected]. *)
Definition within (tolerance expected : Q) (x : num) : Prop :=
  match x with
  | Fin q => Qabs (q - expected) <= tolerance
  | _ => False
  end.

(** The ray came back [null]. *)
Definition no_hit (ray : option num) : Prop := ray = None.

(** [side] is one of the four side constants. *)
Definition valid_side (side : Z) : Prop :=
  side = SIDE_TOP \/ side = SIDE_RIGHT \/ side = SIDE_BOTTOM \/ side = SIDE_LEFT.

(** The slice [_getPixelFromEdge(side, b, a)] takes from the image, for one
    of the four sides. *)
Definition edgePixel `{Platform} (im : ImageData) (side : Z) (b a : num) : list byte :=
  let i := info im in
  let xy :=
    if (side =? SIDE_TOP)%Z then (b, a)
    else if (side =? SIDE_BOTTOM)%Z then (b, (ofZ (height i) - ofZ 1 - a)%num)
    else if (side =? SIDE_LEFT)%Z then (a, b)
    else ((ofZ (width i) - ofZ 1 - a)%num, b) in
  let offset := pixelOffset i (fst xy) (snd xy) in
  Buffer_slice (data im) offset (offset + ofZ (channels i))%num.

(** The normalized brightness a ray along [b] meets at depth [a]. *)
Definition sampleAt `{Platform} (this : CropDetector) (im : ImageData)
    (side : Z) (b bg : num) (a : Z) : num :=
  rayLevel this (edgePixel im side b (ofZ a)) bg.

(** The hit list between two turns of the loop, about to read depth [a]:
    empty, or the one hit of depth [a - 1]. *)
Definition streak `{Platform} (this : CropDetector) (im : ImageData)
    (side : Z) (b bg : num) (a : Z) (rayHits : list hit) : Prop :=
  rayHits = [] \/
  (rayHits = [(ofZ (a - 1), sampleAt this im side b bg (a - 1))] /\
   (sampleAt this im side b bg (a - 1) >? Fin (rayThreshold (settings this)))%num
     = true).

(** The [channels] bytes of the pixel in column [x] of row [y]. *)
Definition pixelBytes `{Platform} (im : ImageData) (x y : Z) : list byte :=
  let i := info im in
  map (fun k => buf_byte (data im)
                  ((y * width i + x) * channels i + Z.of_nat k))
      (List.seq 0 (Z.to_nat (channels i))).

(** The canvas coordinates [_getPixelFromEdge] reads at depth [a] of the
    ray along [b]. *)
Definition edgeCoords (i : Info) (side b a : Z) : Z * Z :=
  if (side =? SIDE_TOP)%Z then (b, a)
  else if (side =? SIDE_BOTTOM)%Z then (b, (height i - 1 - a)%Z)
  else if (side =? SIDE_LEFT)%Z then (a, b)
  else ((width i - 1 - a)%Z, b).

(** The buffer of an image holds [width * height * channels] bytes, of at
    least one pixel. *)
Definition well_formed `{Platform} (im : ImageData) : Prop :=
  (0 < width (info im))%Z /\ (0 < height (info im))%Z /\
  (0 <= channels (info im))%Z /\
  buf_length (data im)
    = (width (info im) * height (info im) * channels (info im))%Z.

(** The number a byte stands for. *)
Definition byte_value (c : byte) : num := ofZ (Z.of_N (Byte.to_N c)).

(** The ray came back [null] or with a finite position. *)
Definition ray_is_number (ray : option num) : Prop :=
  match ray with
  | Some (Fin _) | None => True
  | Some _ => False
  end.

(** The least positive normal binary64 number, [2^-1022]: the reciprocal of
    a number that is not below it is finite in binary64. *)
Definition min_normal : Q := 1 # (2 ^ 1022).

(** A raw level: an integer of [[0, 255]]. *)
Definition raw_level (l : Z) : Prop := (0 <= l <= 255)%Z.

(** * Properties *)

(** ** Numbers *)

Lemma Qlt_bool_iff (x y : Q) : Qlt_bool x y = true <-> x < y.
Proof. unfold Qlt_bool, Qlt. apply Z.ltb_lt. Qed.

Lemma Qlt_bool_false (x y : Q) : Qlt_bool x y = false <-> y <= x.
Proof. unfold Qlt_bool, Qle. apply Z.ltb_ge. Qed.

Lemma Qle_bool_false (x y : Q) : Qle_bool x y = false <-> y < x.
Proof.
  split; intro Hxy.
  - destruct (Qlt_le_dec y x) as [Hlt | Hle]; [exact Hlt |].
    apply Qle_bool_iff in Hle. congruence.
  - destruct (Qle_bool x y) eqn:E; [| reflexivity].
    apply Qle_bool_iff in E. lra.
Qed.

Lemma Qeq_bool_false (x y : Q) : Qeq_bool x y = false <-> ~ x == y.
Proof.
  split; [apply Qeq_bool_neq |].
  intro Hne. destruct (Qeq_bool x y) eqn:E; [| reflexivity].
  apply Qeq_bool_iff in E. contradiction.
Qed.

Lemma num_eq_refl (x : num) : x ≡ x.
Proof. destruct x; simpl; auto. reflexivity. Qed.

Lemma num_eq_sym (x y : num) : x ≡ y -> y ≡ x.
Proof. destruct x, y; simpl; auto. intro E. symmetry. exact E. Qed.

Lemma num_eq_trans (x y z : num) : x ≡ y -> y ≡ z -> x ≡ z.
Proof.
  destruct x, y, z; simpl; auto; try contradiction.
  intros E1 E2. rewrite E1. exact E2.
Qed.

(** [x < y] excludes [y < x] and [x === y]. *)
Lemma nlt_asym (x y : num) : (x <? y)%num = true -> (y <? x)%num = false.
Proof.
  destruct x, y; simpl; try congruence.
  rewrite Qlt_bool_iff, Qlt_bool_false. lra.
Qed.

Lemma nlt_strict_neq (x y : num) :
  (x <? y)%num = true -> (x === y)%num = false /\ (y === x)%num = false.
Proof.
  destruct x, y; simpl; try congruence; auto.
  rewrite Qlt_bool_iff, !Qeq_bool_false. split; lra.
Qed.

Lemma nlt_Math_min (x y : num) : (x <? y)%num = true -> Math_min x y = x.
Proof.
  intro Hlt. pose proof (nlt_asym _ _ Hlt) as Hge.
  unfold Math_min. rewrite Hge.
  destruct x, y; simpl in *; congruence.
Qed.

Lemma nlt_Math_max (x y : num) : (x <? y)%num = true -> Math_max x y = y.
Proof.
  intro Hlt. unfold Math_max. rewrite Hlt.
  destruct x, y; simpl in *; congruence.
Qed.

Lemma Math_min_comm_lt (x y : num) : (x <? y)%num = true -> Math_min y x = x.
Proof.
  intro Hlt. unfold Math_min. rewrite Hlt.
  destruct x, y; simpl in *; congruence.
Qed.

Lemma Math_max_comm_lt (x y : num) : (x <? y)%num = true -> Math_max y x = y.
Proof.
  intro Hlt. pose proof (nlt_asym _ _ Hlt) as Hge.
  unfold Math_max. rewrite Hge.
  destruct x, y; simpl in *; congruence.
Qed.

Lemma clamp8_range (x : num) : x <> NaN -> in_byte_range (clamp8 x).
Proof.
  intro Hx. unfold clamp8, clamp, Math_max, Math_min, ofZ.
  destruct x as [q | | |]; simpl; try congruence.
  - destruct (Qlt_bool q (inject_Z 255)) eqn:E1; simpl.
    + destruct (Qlt_bool (inject_Z 0) q) eqn:E2; simpl.
      * apply Qlt_bool_iff in E1, E2. unfold inject_Z in *. lra.
      * unfold inject_Z. lra.
    + unfold inject_Z; simpl. lra.
  - unfold inject_Z; simpl. lra.
  - unfold inject_Z; simpl. lra.
Qed.

Lemma clamp8_cases (x : num) : clamp8 x = NaN \/ in_byte_range (clamp8 x).
Proof.
  destruct x; try (right; apply clamp8_range; congruence).
  left. reflexivity.
Qed.

(** ** Scan geometry *)

(** C4.  On finite scan lengths and positive ratios, [correctScanRatio]
    returns the scan length unchanged when the two ratios are equal or when
    no correction is asked for; with correction and different ratios it
    returns [L * min(r1, r2) / max(r1, r2)], which is at most [L] when [L]
    is not negative. *)
Theorem correctScanRatio_laws (L r r1 r2 : Q) :
  0 < r -> 0 < r1 -> 0 < r2 ->
  correctScanRatio (Fin L) (Fin r) (Fin r) true = Fin L /\
  correctScanRatio (Fin L) (Fin r1) (Fin r2) false = Fin L /\
  (~ r1 == r2 ->
   correctScanRatio (Fin L) (Fin r1) (Fin r2) true
     ≡ Fin (L * Qmin r1 r2 / Qmax r1 r2) /\
   (0 <= L ->
    (correctScanRatio (Fin L) (Fin r1) (Fin r2) true <=? Fin L)%num = true)).
Proof.
  intros Hr Hr1 Hr2. unfold correctScanRatio. simpl.
  rewrite Qeq_bool_refl. repeat split.
  - apply Qeq_bool_false in H. rewrite H. simpl.
    unfold ngt. simpl.
    destruct (Qlt_bool r2 r1) eqn:E; simpl.
    + apply Qlt_bool_iff in E.
      assert (Hz : Qeq_bool r1 0 = false) by (apply Qeq_bool_false; lra).
      rewrite Hz. simpl.
      rewrite (Q.min_r r1 r2), (Q.max_l r1 r2) by lra.
      field. lra.
    + apply Qlt_bool_false in E.
      assert (Hz : Qeq_bool r2 0 = false) by (apply Qeq_bool_false; lra).
      rewrite Hz. simpl.
      rewrite (Q.min_l r1 r2), (Q.max_r r1 r2) by lra.
      field. lra.
  - intro HL. apply Qeq_bool_false in H. rewrite H. simpl.
    unfold ngt. simpl.
    destruct (Qlt_bool r2 r1) eqn:E; simpl.
    + apply Qlt_bool_iff in E.
      assert (Hz : Qeq_bool r1 0 = false) by (apply Qeq_bool_false; lra).
      rewrite Hz. simpl. apply Qle_bool_iff.
      assert (Hq : r2 / r1 <= 1) by (apply Qle_shift_div_r; lra).
      nra.
    + apply Qlt_bool_false in E.
      assert (Hz : Qeq_bool r2 0 = false) by (apply Qeq_bool_false; lra).
      rewrite Hz. simpl. apply Qle_bool_iff.
      assert (Hq : r1 / r2 <= 1) by (apply Qle_shift_div_r; lra).
      nra.
Qed.

Lemma correctScanRatio_laws_witness :
  correctScanRatio (Fin 640) (Fin (4 # 3)) (Fin (4 # 3)) true = Fin 640 /\
  correctScanRatio (Fin 640) (Fin (4 # 3)) (Fin (16 # 9)) false = Fin 640 /\
  (~ (4 # 3) == (16 # 9) ->
   correctScanRatio (Fin 640) (Fin (4 # 3)) (Fin (16 # 9)) true
     ≡ Fin (640 * Qmin (4 # 3) (16 # 9) / Qmax (4 # 3) (16 # 9)) /\
   (0 <= 640 ->
    (correctScanRatio (Fin 640) (Fin (4 # 3)) (Fin (16 # 9)) true
       <=? Fin 640)%num = true)).
Proof.
  apply (correctScanRatio_laws 640 (r := 4 # 3) (r1 := 4 # 3) (r2 := 16 # 9));
    reflexivity.
Defined.

(** C8.  For the top and bottom sides [getSideScanLength] returns the width
    times [min(imageRatio, canvasRatio) / max(imageRatio, canvasRatio)]
    exactly when [imageRatio < canvasRatio], and the full width otherwise;
    for the left and right sides it returns the height times that factor
    exactly when [imageRatio > canvasRatio], and the full height
    otherwise. *)
Theorem getSideScanLength_cases `{Platform} (w h imageRatio canvasRatio : num) :
  let factor :=
    (Math_min imageRatio canvasRatio / Math_max imageRatio canvasRatio)%num in
  let horizontal :=
    if (imageRatio <? canvasRatio)%num then (w * factor)%num else w in
  let vertical :=
    if (imageRatio >? canvasRatio)%num then (h * factor)%num else h in
  getSideScanLength w h imageRatio canvasRatio SIDE_TOP = Ok horizontal /\
  getSideScanLength w h imageRatio canvasRatio SIDE_BOTTOM = Ok horizontal /\
  getSideScanLength w h imageRatio canvasRatio SIDE_LEFT = Ok vertical /\
  getSideScanLength w h imageRatio canvasRatio SIDE_RIGHT = Ok vertical.
Proof.
  intros factor horizontal vertical.
  assert (Hh : correctScanRatio w imageRatio canvasRatio
                 (imageRatio <? canvasRatio)%num = horizontal).
  { unfold correctScanRatio, horizontal, factor.
    destruct (imageRatio <? canvasRatio)%num eqn:E; [| reflexivity].
    destruct (nlt_strict_neq _ _ E) as [Hne _]. rewrite Hne. simpl.
    unfold ngt. rewrite (nlt_asym _ _ E).
    rewrite (nlt_Math_min _ _ E), (nlt_Math_max _ _ E). reflexivity. }
  assert (Hv : correctScanRatio h imageRatio canvasRatio
                 (imageRatio >? canvasRatio)%num = vertical).
  { unfold correctScanRatio, vertical, factor.
    destruct (imageRatio >? canvasRatio)%num eqn:E; [| reflexivity].
    unfold ngt in E.
    destruct (nlt_strict_neq _ _ E) as [_ Hne]. rewrite Hne. simpl.
    rewrite (Math_min_comm_lt _ _ E), (Math_max_comm_lt _ _ E). reflexivity. }
  unfold getSideScanLength. simpl. rewrite Hh, Hv. repeat split.
Qed.

(** ** Ray hits *)

(** C5.  On the hits [(5, 60)] and [(6, 240)] the later sample is the
    brighter one, the factor is [255/240], the weight [1/4], and
    [normalizeRayHits] returns [5 + 1 * (3/4) = 5.75] (so within [1e-6] of
    it). *)
Theorem normalizeRayHits_example `{Platform} :
  let a : hit := (ofZ 5, ofZ 60) in
  let b : hit := (ofZ 6, ofZ 240) in
  hitLevel a ≡ Fin (60 # 255) /\
  hitLevel b ≡ Fin (240 # 255) /\
  hitDirection a b = false /\
  hitFactor a b ≡ Fin (255 # 240) /\
  hitWeight a b ≡ Fin (1 # 4) /\
  exists pos : Q,
    normalizeRayHits [a; b] = Ok (Fin pos) /\
    pos == 5 + 1 * (3 # 4) /\
    Qabs (pos - (575 # 100)) <= 1 # 1000000.
Proof.
  cbv zeta. repeat split; try reflexivity.
  eexists. split; [reflexivity |]. split; [reflexivity |].
  vm_compute. discriminate.
Qed.

(** ** Colour normalization *)

(** X23.  Below the black point the base of [Math.pow] is negative; a
    fractional exponent then gives [NaN], which [clamp8] lets through.  Away
    from that case (the value at or above the black point, or [1 / gamma] an
    integer; white above black) the result is a number of [[0, 255]], for
    every gamma that is at least the least normal number [2^-1022].  (Below
    it [1 / gamma] overflows in binary64, and [Math.pow(1, Infinity)] is
    [NaN].) *)
Lemma calcNormalizedColor_range `{Platform} (value blackPoint whitePoint : num) (g : Q) :
  let black := clamp8 blackPoint in
  let white := clamp (clamp8 whitePoint) black (ofZ 255) in
  value <> NaN ->
  min_normal <= g ->
  (white >? black)%num = true ->
  (black <=? clamp8 value)%num = true \/ Qis_integer (inject_Z 1 / g) = true ->
  in_byte_range (calcNormalizedColor value blackPoint whitePoint (Fin g)).
Proof.
  intros black white Hv Hnormal Hwb Hcase.
  assert (Hg : 0 < g).
  { apply Qlt_le_trans with (y := min_normal); [reflexivity | exact Hnormal]. }
  unfold calcNormalizedColor. fold black. fold white.
  pose proof (clamp8_range Hv) as Hcv.
  destruct (clamp8 value) as [cv | | |] eqn:Ecv; try contradiction.
  unfold ngt in Hwb.
  assert (Hfin : exists bk wh, black = Fin bk /\ white = Fin wh).
  { unfold white, clamp.
    destruct (clamp8_cases blackPoint) as [Eb | Eb]; fold black in Eb.
    - rewrite Eb in Hwb. destruct white; discriminate.
    - destruct black as [bk | | |]; try contradiction.
      destruct (clamp8_cases whitePoint) as [Ew | Ew].
      + exfalso. unfold white, clamp in Hwb. rewrite Ew in Hwb.
        discriminate.
      + destruct (clamp8 whitePoint) as [w | | |]; try contradiction.
        exists bk. unfold Math_min, Math_max, ofZ. simpl.
        destruct (Qlt_bool w (inject_Z 255)); simpl;
          match goal with |- context [Qlt_bool ?a ?b] => destruct (Qlt_bool a b) end;
          eauto. }
  destruct Hfin as (bk & wh & Ebk & Ewh).
  rewrite Ebk, Ewh in *. simpl in Hwb.
  apply Qlt_bool_iff in Hwb.
  assert (Hd : Qeq_bool (wh + - bk) 0 = false) by (apply Qeq_bool_false; lra).
  assert (Hg0 : Qeq_bool g 0 = false) by (apply Qeq_bool_false; lra).
  assert (He : 0 < inject_Z 1 / g).
  { apply Qlt_shift_div_l; [exact Hg | unfold inject_Z; lra]. }
  assert (He0 : Qeq_bool (inject_Z 1 / g) 0 = false) by (apply Qeq_bool_false; lra).
  assert (Hpow : exists p,
             Math_pow ((Fin cv - Fin bk) / (Fin wh - Fin bk))%num (ofZ 1 / Fin g)%num = Fin p).
  { unfold nsub, ofZ. simpl. rewrite Hd, Hg0. simpl. rewrite He0.
    destruct (Qeq_bool ((cv + - bk) / (wh + - bk)) 0) eqn:Eb0.
    - apply Qlt_bool_iff in He. rewrite He. eauto.
    - destruct (Qis_integer (inject_Z 1 / g)) eqn:Ei; [eauto |].
      destruct Hcase as [Hle | Hint]; [| discriminate].
      simpl in Hle. apply Qle_bool_iff in Hle.
      assert (Hb : Qlt_bool ((cv + - bk) / (wh + - bk)) 0 = false).
      { apply Qlt_bool_false. apply Qle_shift_div_l; lra. }
      rewrite Hb. eauto. }
  destruct Hpow as [p Hp]. rewrite Hp.
  apply clamp8_range. simpl. discriminate.
Qed.

(** C7.  [calcNormalizedColor(0, 6, 60, 2)]: the clamped white point 60 is
    above the clamped black point 6 and gamma is positive, yet the result is
    [NaN], not a number of [[0, 255]]. *)
Theorem calcNormalizedColor_below_black_NaN `{Platform} :
  let black := clamp8 (ofZ 6) in
  let white := clamp (clamp8 (ofZ 60)) black (ofZ 255) in
  (white >? black)%num = true /\
  (ofZ 2 >? ofZ 0)%num = true /\
  calcNormalizedColor (ofZ 0) (ofZ 6) (ofZ 60) (ofZ 2) = NaN /\
  ~ in_byte_range (calcNormalizedColor (ofZ 0) (ofZ 6) (ofZ 60) (ofZ 2)).
Proof.
  cbv zeta. repeat split. intro Hr. exact Hr.
Qed.

(** ** The detector before a load *)

Lemma constructor_not_loaded `{Platform} (aspectRatio : option num) :
  isLoaded (constructor aspectRatio) = false.
Proof. reflexivity. Qed.

(** A load that fails returns no detector: the caller keeps the one it had,
    with [isLoaded] as before. *)
Lemma loadImageBuffer_loaded `{Platform} (this this' : CropDetector)
    (buffer : Buffer) (tr tr' : list event) :
  loadImageBuffer this buffer tr = (Ok this', tr') -> isLoaded this' = true.
Proof.
  unfold loadImageBuffer, sharp_metadata_call, sharp_raw_call, bind, tell, ret, throw.
  destruct (sharp_metadata (FromBuffer buffer)); [discriminate |].
  destruct (sharp_raw (FromBuffer buffer)) as [e | [d i]]; [discriminate |].
  intro E. injection E as <- _. reflexivity.
Qed.

(** The loads leave the pixel buffer alone: whatever they add to the trace
    is a call into the decoder. *)
Lemma load_no_pixel_read `{Platform} (this : CropDetector) (c : load_call)
    (tr tr' : list event) (r : result CropDetector) :
  load this c tr = (r, tr') ->
  Forall (fun ev => ~ is_pixel_read ev) tr ->
  Forall (fun ev => ~ is_pixel_read ev) tr'.
Proof.
  assert (Hbuf : forall input k tr0 tr1 r0,
             Forall (fun ev => ~ is_pixel_read ev) tr0 ->
             (m <- sharp_metadata_call input ;;
              '(d, i) <- sharp_raw_call input ;;
              ret (loaded this k d i m)) tr0 = (r0, tr1) ->
             Forall (fun ev => ~ is_pixel_read ev) tr1).
  { intros input k tr0 tr1 r0 Htr0.
    unfold sharp_metadata_call, sharp_raw_call, bind, tell, ret, throw.
    destruct (sharp_metadata input).
    - intro E. injection E as _ <-. constructor; [intros [] | exact Htr0].
    - destruct (sharp_raw input) as [e | [d i]];
        intro E; injection E as _ <-;
        repeat (constructor; [intros [] |]); exact Htr0. }
  intros Hrun Htr. destruct c as [buffer | path | base64]; simpl in Hrun.
  - exact (Hbuf _ _ _ _ _ Htr Hrun).
  - exact (Hbuf _ _ _ _ _ Htr Hrun).
  - unfold loadImageBase64 in Hrun.
    destruct (match_data_uri base64) as [mime |].
    + unfold bind at 1, tell in Hrun.
      refine (Hbuf _ _ _ _ _ _ Hrun). constructor; [intros [] | exact Htr].
    + unfold throw in Hrun. injection Hrun as _ <-. exact Htr.
Qed.

Lemma never_loaded_flag `{Platform} (this : CropDetector) (tr : list event) :
  never_loaded this tr ->
  isLoaded this = false /\ Forall (fun ev => ~ is_pixel_read ev) tr.
Proof.
  induction 1 as [aspectRatio | this c e tr tr' _ [IHflag IHtr] Hload].
  - split; [reflexivity | constructor].
  - split; [exact IHflag |]. exact (load_no_pixel_read _ _ Hload IHtr).
Qed.

(** C6.  On a detector on which no load has succeeded (it comes from the
    constructor, and every load called on it has thrown), [detectCropBox]
    throws "No image loaded." and leaves the trace as it was; that trace
    holds no slice of a pixel buffer. *)
Theorem detectCropBox_not_loaded `{Platform} (this : CropDetector) (tr : list event) :
  never_loaded this tr ->
  detectCropBox this tr = (Throw (Error "No image loaded."), tr) /\
  Forall (fun ev => ~ is_pixel_read ev) (snd (detectCropBox this tr)).
Proof.
  intro Hnever. destruct (never_loaded_flag Hnever) as [Hflag Htr].
  assert (Hrun : detectCropBox this tr = (Throw (Error "No image loaded."), tr)).
  { unfold detectCropBox. rewrite Hflag. reflexivity. }
  split; [exact Hrun |]. rewrite Hrun. exact Htr.
Qed.

Lemma detectCropBox_not_loaded_witness :
  @detectCropBox bare_platform (constructor None)
     [SharpMetadata (FromFile "scan.png")]
    = (Throw (Error "No image loaded."), [SharpMetadata (FromFile "scan.png")]) /\
  Forall (fun ev => ~ is_pixel_read ev)
    (snd (@detectCropBox bare_platform (constructor None)
            [SharpMetadata (FromFile "scan.png")])).
Proof.
  apply (@detectCropBox_not_loaded bare_platform).
  apply (@never_loaded_failed bare_platform (constructor None)
           (LoadFile "scan.png")
           (@Rejected bare_platform
              "Input buffer contains unsupported image format"%string)
           []).
  - apply (@never_loaded_new bare_platform).
  - reflexivity.
Defined.

(** ** The result of a detection *)

Lemma detectCropBox_ok_inv `{Platform} (this : CropDetector) (tr tr' : list event)
    (box : CropBox) :
  detectCropBox this tr = (Ok box, tr') ->
  exists im edges bg,
    image this = Some im /\ box = cropBox this (info im) edges bg.
Proof.
  unfold detectCropBox.
  destruct (isLoaded this); simpl; [| discriminate].
  unfold bind, defined.
  destruct (image this) as [im |]; simpl; [| discriminate].
  destruct (_getBgBrightness this tr) as [[bg | e] tr1]; [| discriminate].
  destruct (_findEdges this bg tr1) as [[edges | e] tr2]; [| discriminate].
  unfold ret. intro E. injection E as <- _. eauto.
Qed.

(** X26.  The corrected dimensions of a successful run whose cropped ratio
    is a positive number, for a target ratio that is not [NaN]: the
    corrected width is the source width or above it, and the corrected
    height is the source height or below it.  When the target ratio is above
    the cropped ratio the width is scaled by [imageRatio / croppedRatio],
    which is at least 1, and the height is kept; otherwise the width is
    kept and it is the height that is scaled by [imageRatio / croppedRatio],
    which is then at most 1. *)
Theorem detectCropBox_height_never_padded `{Platform} (this : CropDetector)
    (tr tr' : list event) (box : CropBox) (im : ImageData) (c : Q) :
  detectCropBox this tr = (Ok box, tr') ->
  image this = Some im ->
  (0 < width (info im) < 2 ^ 32)%Z ->
  (0 < height (info im) < 2 ^ 32)%Z ->
  cropped_aspectRatio box = Fin c ->
  0 < c ->
  imageRatio this <> NaN ->
  (source_width box <=? cropped_correctedWidth box)%num = true /\
  (cropped_correctedHeight box <=? source_height box)%num = true /\
  ((imageRatio this >? Fin c)%num = true ->
   cropped_correctedWidth box
     = (source_width box * (imageRatio this / Fin c))%num /\
   cropped_correctedHeight box = source_height box) /\
  ((imageRatio this >? Fin c)%num = false ->
   cropped_correctedWidth box = source_width box /\
   cropped_correctedHeight box
     = (source_height box * (imageRatio this / Fin c))%num).
Proof.
  intros Hrun Him [Hw _] [Hh _] Hc Hpos Hnan.
  destruct (detectCropBox_ok_inv _ _ Hrun) as (im' & edges & bg & Him' & ->).
  rewrite Him in Him'. injection Him' as <-. clear Hrun.
  set (box := cropBox this (info im) edges bg) in *.
  assert (EW : cropped_correctedWidth box =
               if (imageRatio this >? cropped_aspectRatio box)%num
               then (source_width box
                     * (imageRatio this / cropped_aspectRatio box))%num
               else source_width box) by reflexivity.
  assert (EH : cropped_correctedHeight box =
               if (imageRatio this >? cropped_aspectRatio box)%num
               then source_height box
               else (source_height box
                     * (imageRatio this / cropped_aspectRatio box))%num)
    by reflexivity.
  assert (SW : source_width box = Fin (inject_Z (width (info im)))) by reflexivity.
  assert (SH : source_height box = Fin (inject_Z (height (info im)))) by reflexivity.
  rewrite Hc in EW, EH. rewrite EW, EH, SW, SH. clear EW EH SW SH Hc box.
  assert (HW : 0 < inject_Z (width (info im))).
  { replace 0 with (inject_Z 0) by reflexivity. rewrite <- Zlt_Qlt. exact Hw. }
  assert (HH : 0 < inject_Z (height (info im))).
  { replace 0 with (inject_Z 0) by reflexivity. rewrite <- Zlt_Qlt. exact Hh. }
  set (W := inject_Z (width (info im))) in *.
  set (Hq := inject_Z (height (info im))) in *.
  assert (Hc0 : Qeq_bool c 0 = false) by (apply Qeq_bool_false; lra).
  assert (Hs : (Qnum c ?= 0)%Z = Gt).
  { apply Z.compare_gt_iff. unfold Qlt in Hpos. simpl in Hpos. lia. }
  split; [| split; [| split]].
  - destruct (imageRatio this >? Fin c)%num eqn:Hgt.
    + unfold ngt in Hgt.
      destruct (imageRatio this) as [r | | |]; simpl in Hgt; try discriminate.
      * simpl. rewrite Hc0. simpl. apply Qle_bool_iff.
        apply Qlt_bool_iff in Hgt.
        assert (Hrc : 1 <= r / c) by (apply Qle_shift_div_l; lra).
        nra.
      * simpl. rewrite Hc0. simpl. rewrite Hs. simpl.
        assert (Hs' : (width (info im) ?= 0)%Z = Gt)
          by (apply Z.compare_gt_iff; lia).
        unfold W. simpl. rewrite Hs'. reflexivity.
    + simpl. apply Qle_bool_iff. lra.
  - destruct (imageRatio this >? Fin c)%num eqn:Hgt.
    + simpl. apply Qle_bool_iff. lra.
    + unfold ngt in Hgt.
      destruct (imageRatio this) as [r | | |]; simpl in Hgt; try discriminate.
      * simpl. rewrite Hc0. simpl. apply Qle_bool_iff.
        apply Qlt_bool_false in Hgt.
        assert (Hrc : r / c <= 1) by (apply Qle_shift_div_r; lra).
        nra.
      * simpl. rewrite Hc0. simpl. rewrite Hs. simpl.
        assert (Hs' : (height (info im) ?= 0)%Z = Gt)
          by (apply Z.compare_gt_iff; lia).
        unfold Hq. simpl. rewrite Hs'. reflexivity.
      * contradiction.
  - intro Hgt. rewrite Hgt. split; reflexivity.
  - intro Hgt. rewrite Hgt. split; reflexivity.
Qed.

Lemma detectCropBox_height_never_padded_witness :
  exists box : CropBox,
    fst (@detectCropBox bare_platform narrow_target_detector []) = Ok box /\
    (source_width box <=? cropped_correctedWidth box)%num = true /\
    (cropped_correctedHeight box <=? source_height box)%num = true.
Proof.
  eexists. split; [vm_compute; reflexivity |].
  refine ((fun H => conj (proj1 H) (proj1 (proj2 H)))
    (@detectCropBox_height_never_padded bare_platform narrow_target_detector [] _ _
       narrow_target_image _ _ _ _ _ _ _ _)).
  - vm_compute. reflexivity.
  - reflexivity.
  - split; reflexivity.
  - split; reflexivity.
  - vm_compute. reflexivity.
  - reflexivity.
  - discriminate.
Defined.

(** C3.  On a 20 by 20 canvas with a black frame of 2 pixels around a white
    interior and the target ratio 1/2 the run succeeds with the cropped
    ratio 1, which is positive.  The target ratio is not above it, so the
    width is kept at 20 and the height is multiplied by
    [imageRatio / croppedRatio = 1/2]: the corrected height is 10, below
    the source height 20, where the claim has the height padded and never
    shrunk.  Source and cropped area are both square here, and the
    corrected box of 20 by 10 has the ratio 2, the inverse of the target
    ratio 1/2. *)
Theorem detectCropBox_corrected_height_shrinks :
  exists box : CropBox,
    fst (@detectCropBox bare_platform narrow_target_detector []) = Ok box /\
    target_aspectRatio box ≡ Fin (1 # 2) /\
    cropped_aspectRatio box ≡ ofZ 1 /\
    (imageRatio narrow_target_detector >? cropped_aspectRatio box)%num = false /\
    source_width box ≡ ofZ 20 /\
    source_height box ≡ ofZ 20 /\
    cropped_correctedWidth box ≡ ofZ 20 /\
    cropped_correctedHeight box ≡ ofZ 10 /\
    (source_height box <=? cropped_correctedHeight box)%num = false /\
    (cropped_correctedWidth box / cropped_correctedHeight box)%num ≡ ofZ 2.
Proof.
  eexists. split; [vm_compute; reflexivity |].
  vm_compute. repeat split.
Qed.

(** ** Loading from a base64 string *)

Lemma strip_prefix_sound (p s r : string) :
  strip_prefix p s = Some r -> s = (p ++ r)%string.
Proof.
  revert s. induction p as [| a p IH]; intros s Hs; simpl in *.
  - injection Hs as ->. reflexivity.
  - destruct s as [| c s]; [discriminate |].
    destruct (Ascii.eqb a c) eqn:E; [| discriminate].
    apply Ascii.eqb_eq in E. subst c. f_equal. apply IH. exact Hs.
Qed.

Lemma append_cons_assoc (g : string) (c : ascii) (extra : string) :
  ((g ++ String c EmptyString) ++ extra)%string = (g ++ String c extra)%string.
Proof.
  induction g as [| a g IH]; simpl; [reflexivity |]. f_equal. exact IH.
Qed.

(** What the lazy group has taken when the match succeeds: characters that
    are no line terminators, up to a literal [;base64,]. *)
Lemma match_lazy_group_sound (rest group g : string) :
  match_lazy_group group rest = Some g ->
  exists extra tail : string,
    g = (group ++ extra)%string /\
    rest = (extra ++ ";base64," ++ tail)%string /\
    Forall (fun c => is_line_terminator c = false) (list_ascii_of_string extra).
Proof.
  revert group. induction rest as [| c rest IH]; intros group Hm.
  - simpl in Hm. discriminate.
  - cbn [match_lazy_group] in Hm.
    destruct (strip_prefix ";base64," (String c rest)) as [tail |] eqn:Es.
    + injection Hm as <-. exists EmptyString, tail. repeat split.
      * clear. induction group; simpl; congruence.
      * apply strip_prefix_sound in Es. exact Es.
      * constructor.
    + destruct (is_line_terminator c) eqn:Ec; [discriminate |].
      destruct (IH _ Hm) as (extra & tail & -> & -> & Hplain).
      exists (String c extra), tail. repeat split.
      * apply append_cons_assoc.
      * simpl. constructor; assumption.
Qed.

Lemma match_data_uri_sound (s : string) (m : string * string) :
  match_data_uri s = Some m -> has_data_uri_prefix s.
Proof.
  unfold match_data_uri.
  destruct (strip_prefix "data:" s) as [[| c rest] |] eqn:Es; try discriminate.
  destruct (is_line_terminator c) eqn:Ec; [discriminate |].
  destruct (match_lazy_group (String c EmptyString) rest) as [g |] eqn:Eg;
    [| discriminate].
  intros _. apply strip_prefix_sound in Es.
  destruct (match_lazy_group_sound _ _ Eg) as (extra & tail & -> & -> & Hplain).
  exists (String c extra), tail. split.
  - split; [discriminate |]. simpl. constructor; assumption.
  - exact Es.
Qed.

(** C9.  On a string that does not begin with a literal
    [data:<mime>;base64,], [loadImageBase64] throws "Not a base64 image
    string." with the trace it started from (neither [Buffer.from] nor
    [sharp] has been called), and what it throws is no rejection of the
    decoder. *)
Theorem loadImageBase64_not_data_uri `{Platform} (this : CropDetector)
    (base64 : string) (tr : list event) :
  ~ has_data_uri_prefix base64 ->
  loadImageBase64 this base64 tr
    = (Throw (Error "Not a base64 image string."), tr) /\
  forall e : SharpError, Error "Not a base64 image string." <> Rejected e.
Proof.
  intro Hno. split; [| discriminate].
  unfold loadImageBase64.
  destruct (match_data_uri base64) as [m |] eqn:Em; [| reflexivity].
  exfalso. apply Hno. exact (match_data_uri_sound _ Em).
Qed.

Lemma loadImageBase64_not_data_uri_witness :
  @loadImageBase64 bare_platform (constructor None) "iVBORw0KGgo=" []
    = (Throw (Error "Not a base64 image string."), []) /\
  forall e : @SharpError bare_platform,
    @Error bare_platform "Not a base64 image string." <> Rejected e.
Proof.
  apply (@loadImageBase64_not_data_uri bare_platform).
  intros (mime & rest & _ & E). discriminate E.
Defined.

(** With the prefix in place the text after it goes to [Buffer.from] and
    its bytes to [sharp]; a rejection of [sharp] is passed on. *)
Lemma loadImageBase64_data_uri_decodes :
  @loadImageBase64 bare_platform (constructor None)
     "data:image/png;base64,iVBORw0KGgo=" []
  = (Throw (@Rejected bare_platform
              "Input buffer contains unsupported image format"%string),
     [SharpMetadata (FromBuffer (Buffer_of_list [])); Base64Decode "iVBORw0KGgo="]).
Proof. reflexivity. Qed.

(** ** Sides on which no ray finds the image *)

Lemma findEdge_of_rays `{Platform} (this : CropDetector) (side : Z) (bg : num)
    (tr : list event) :
  _findEdge this side bg tr =
  match _findEdge_rays this side bg tr with
  | (Ok rays, tr') => (Ok (Math_min_spread (filter_not_null rays)), tr')
  | (Throw e, tr') => (Throw e, tr')
  end.
Proof.
  unfold _findEdge, bind.
  destruct (_findEdge_rays this side bg tr) as [[rays | e] tr']; reflexivity.
Qed.

Lemma filter_not_null_no_hit (rays : list (option num)) :
  Forall no_hit rays -> filter_not_null rays = [].
Proof.
  induction 1 as [| ray rays Hray _ IH]; [reflexivity |].
  unfold no_hit in Hray. subst ray. exact IH.
Qed.

(** C1.  When the rays of a side are cast without an exception and every
    one of them comes back [null], [_findEdge] returns [Infinity] for that
    side: a number, where the specification asks for an explicit failure. *)
Theorem findEdge_no_hit_Infinity `{Platform} (this : CropDetector) (side : Z)
    (bg : num) (tr tr' : list event) (rays : list (option num)) :
  _findEdge_rays this side bg tr = (Ok rays, tr') ->
  Forall no_hit rays ->
  _findEdge this side bg tr = (Ok PInf, tr').
Proof.
  intros Hrays Hnone. rewrite findEdge_of_rays, Hrays.
  rewrite (filter_not_null_no_hit Hnone). reflexivity.
Qed.

Lemma findEdge_no_hit_Infinity_witness :
  fst (@_findEdge bare_platform bare_all_black SIDE_TOP (ofZ 0) [])
    = Ok PInf.
Proof.
  pose proof (@findEdge_no_hit_Infinity bare_platform bare_all_black
                SIDE_TOP (ofZ 0) []
                (snd (_findEdge_rays bare_all_black SIDE_TOP (ofZ 0) []))
                (repeat None 15)) as Hedge.
  rewrite Hedge; [reflexivity | vm_compute; reflexivity |].
  repeat constructor.
Defined.

(** The whole detection on a canvas that is black all over: the
    background brightness is 0, every side comes back as [Infinity], and
    the run returns a crop box built from them. *)
Lemma detectCropBox_all_black `{Platform} (m : Metadata) :
  exists box : CropBox,
    fst (detectCropBox (all_black_detector m) []) = Ok box /\
    image_backgroundBrightness box ≡ ofZ 0 /\
    cropped_edges box
      = {| top := PInf; right := PInf; bottom := PInf; left := PInf |} /\
    cropped_width box = NInf /\
    cropped_height box = NInf /\
    cropped_aspectRatio box = NaN.
Proof.
  eexists. split; [vm_compute; reflexivity |].
  vm_compute. repeat split.
Qed.

(** ** The framed canvas of 100 by 100 *)

(** C2 as stated fails: with a white frame the background brightness is
    255, the black point is clamped up to the white point, no sample
    exceeds the threshold, and the four edges are [Infinity]. *)
Lemma detectCropBox_white_frame :
  exists box : CropBox,
    fst (@detectCropBox bare_platform bare_white_frame []) = Ok box /\
    image_backgroundBrightness box ≡ ofZ 255 /\
    cropped_edges box
      = {| top := PInf; right := PInf; bottom := PInf; left := PInf |} /\
    ~ within 1 10 (top (cropped_edges box)) /\
    ~ within 1 80 (cropped_width box) /\
    ~ cropped_correctedHeight box ≡ ofZ 100.
Proof.
  eexists. split; [vm_compute; reflexivity |].
  vm_compute. repeat split; auto.
Qed.

(** C2, amended.  With a black frame of 10 pixels around a white interior
    (default settings, target ratio 1) the run succeeds, the background
    brightness is 0, the four edges are 10, the cropped area is 80 by 80
    with ratio 1, and the corrected size is 100 by 100. *)
Theorem detectCropBox_black_frame `{Platform} (m : Metadata) :
  exists box : CropBox,
    fst (detectCropBox (black_frame_detector m) []) = Ok box /\
    image_backgroundBrightness box ≡ ofZ 0 /\
    top (cropped_edges box) ≡ ofZ 10 /\
    right (cropped_edges box) ≡ ofZ 10 /\
    bottom (cropped_edges box) ≡ ofZ 10 /\
    left (cropped_edges box) ≡ ofZ 10 /\
    cropped_width box ≡ ofZ 80 /\
    cropped_height box ≡ ofZ 80 /\
    cropped_aspectRatio box ≡ ofZ 1 /\
    cropped_correctedWidth box ≡ ofZ 100 /\
    cropped_correctedHeight box ≡ ofZ 100.
Proof.
  eexists. split; [vm_compute; reflexivity |].
  vm_compute. repeat split.
Qed.

(** ** A single ray *)

Lemma calcBrightness_cases (r g b : num) :
  (r = NaN \/ in_byte_range r) ->
  (g = NaN \/ in_byte_range g) ->
  (b = NaN \/ in_byte_range b) ->
  calcBrightness r g b = NaN \/ in_byte_range (calcBrightness r g b).
Proof.
  intros [-> | Hr]; [left; reflexivity |].
  destruct r as [r | | |]; try contradiction.
  intros [-> | Hg]; [left; reflexivity |].
  destruct g as [g | | |]; try contradiction.
  intros [-> | Hb]; [left; reflexivity |].
  destruct b as [b | | |]; try contradiction.
  right. simpl in *. lra.
Qed.

(** A sample is [NaN] or a number of [[0, 255]]. *)
Lemma rayLevel_cases `{Platform} (this : CropDetector) (pixel : list byte) (bg : num) :
  rayLevel this pixel bg = NaN \/ in_byte_range (rayLevel this pixel bg).
Proof.
  unfold rayLevel, calcNormalizedBrightness, calcNormalizedColor.
  apply calcBrightness_cases; apply clamp8_cases.
Qed.

Lemma getPixelFromEdge_run `{Platform} (this : CropDetector) (im : ImageData)
    (side : Z) (b a : num) (tr : list event) :
  image this = Some im ->
  valid_side side ->
  exists ev,
    _getPixelFromEdge this side b a tr
      = (Ok (Some (edgePixel im side b a)), ev :: tr).
Proof.
  intros Him Hside.
  unfold _getPixelFromEdge, _getPixelAt, edgePixel, bind, defined, tell, ret.
  rewrite Him.
  destruct Hside as [-> | [-> | [-> | ->]]]; cbn [Z.eqb SIDE_TOP SIDE_RIGHT SIDE_BOTTOM SIDE_LEFT Pos.eqb fst snd];
    eexists; reflexivity.
Qed.

(** One turn of the loop on a sample that is a number: the streak grows by
    the hit, or is cleared. *)
Lemma rayStepHits_streak `{Platform} (this : CropDetector) (im : ImageData)
    (side : Z) (b bg : num) (a : Z) (rayHits : list hit) :
  streak this im side b bg a rayHits ->
  sampleAt this im side b bg a <> NaN ->
  let rayHits' := rayStepHits this rayHits a (sampleAt this im side b bg a) in
  (streak this im side b bg (a + 1) rayHits' /\ List.length rayHits' < 2)%nat \/
  (rayHits <> [] /\
   rayHits' = [(ofZ (a - 1), sampleAt this im side b bg (a - 1));
               (ofZ a, sampleAt this im side b bg a)] /\
   (sampleAt this im side b bg (a - 1) >? Fin (rayThreshold (settings this)))%num
     = true /\
   (sampleAt this im side b bg a >? Fin (rayThreshold (settings this)))%num
     = true).
Proof.
  intros Hstreak Hnum. cbv zeta. unfold rayStepHits.
  set (n := sampleAt this im side b bg a) in *.
  set (t := rayThreshold (settings this)).
  destruct (n >? Fin t)%num eqn:Hgt.
  - assert (Hle : (n <=? Fin t)%num = false).
    { unfold ngt in Hgt. destruct n as [q | | |]; simpl in *; try congruence.
      apply Qlt_bool_iff in Hgt. apply Qle_bool_false. exact Hgt. }
    rewrite Hle. simpl.
    destruct Hstreak as [-> | [-> Hprev]].
    + left. split; [| simpl; lia]. right.
      replace (a + 1 - 1)%Z with a by lia. fold n. auto.
    + right. split; [intro E; inversion E |].
      split; [reflexivity |]. split; [exact Hprev | reflexivity].
  - assert (Hle : (n <=? Fin t)%num = true).
    { unfold ngt in Hgt. destruct n as [q | | |]; simpl in *; try congruence.
      apply Qlt_bool_false in Hgt. apply Qle_bool_iff. exact Hgt. }
    rewrite Hle. simpl. left.
    assert (E : (if (0 <? List.length rayHits)%nat then [] else rayHits) = []).
    { destruct rayHits; reflexivity. }
    rewrite E. split; [left; reflexivity | simpl; lia].
Qed.

(** The loop, as long as no sample is [NaN]: the two hits it returns are
    the samples of two consecutive depths, both above the threshold. *)
Lemma castEdgeRay_loop_consecutive `{Platform} (this : CropDetector)
    (im : ImageData) (side : Z) (b bg : num) :
  image this = Some im ->
  valid_side side ->
  forall (remaining : nat) (a : Z) (rayHits : list hit) (tr tr' : list event)
         (found : list hit),
    (forall a', (a <= a' < a + Z.of_nat remaining)%Z ->
                sampleAt this im side b bg a' <> NaN) ->
    streak this im side b bg a rayHits ->
    _castEdgeRay_loop this remaining b side bg rayHits a tr = (Ok (Some found), tr') ->
    exists a0 : Z,
      (a - 1 <= a0)%Z /\ (rayHits = [] -> (a <= a0)%Z) /\
      (a0 + 1 < a + Z.of_nat remaining)%Z /\
      found = [(ofZ a0, sampleAt this im side b bg a0);
               (ofZ (a0 + 1), sampleAt this im side b bg (a0 + 1))] /\
      (sampleAt this im side b bg a0 >? Fin (rayThreshold (settings this)))%num
        = true /\
      (sampleAt this im side b bg (a0 + 1) >? Fin (rayThreshold (settings this)))%num
        = true.
Proof.
  intros Him Hside. induction remaining as [| remaining IH];
    intros a rayHits tr tr' found Hnum Hstreak Hrun.
  - simpl in Hrun. unfold ret in Hrun. discriminate.
  - cbn [_castEdgeRay_loop] in Hrun. unfold bind at 1 in Hrun.
    destruct (getPixelFromEdge_run this b (ofZ a) tr Him Hside) as [ev Hpix].
    rewrite Hpix in Hrun. cbn beta iota in Hrun.
    unfold bind, defined, ret in Hrun. cbn beta iota in Hrun.
    fold (sampleAt this im side b bg a) in Hrun.
    assert (Ha : sampleAt this im side b bg a <> NaN) by (apply Hnum; lia).
    pose proof (@rayStepHits_streak _ this im side b bg a rayHits Hstreak Ha) as Hstep.
    cbv zeta in Hstep.
    set (rayHits' := rayStepHits this rayHits a (sampleAt this im side b bg a)) in *.
    destruct Hstep as [[Hnext Hshort] | (Hsome & Hpair & H0 & H1)].
    + assert (Elen : (2 <=? List.length rayHits')%nat = false)
        by (apply Nat.leb_gt; exact Hshort).
      rewrite Elen in Hrun.
      assert (Hnum' : forall a', (a + 1 <= a' < a + 1 + Z.of_nat remaining)%Z ->
                                 sampleAt this im side b bg a' <> NaN).
      { intros a' Ha'. apply Hnum. lia. }
      destruct (IH _ _ _ _ _ Hnum' Hnext Hrun)
        as (a0 & Hlo & _ & Hhi & Hfound & Hl0 & Hl1).
      exists a0. repeat split; try assumption; lia.
    + rewrite Hpair in Hrun. cbn [List.length Nat.leb] in Hrun.
      injection Hrun as <- _. exists (a - 1)%Z.
      replace (a - 1 + 1)%Z with a by lia.
      repeat split; try assumption; try lia.
      intro Hnil. contradiction.
Qed.

Lemma ndiv_Fin (a b : Q) : ~ b == 0 -> (Fin a / Fin b)%num = Fin (a / b).
Proof.
  intro Hb. apply Qeq_bool_false in Hb. unfold ndiv. rewrite Hb. reflexivity.
Qed.

(** Interpolation between two hits of positive level, in exact arithmetic:
    the weight lies in [(0, 1]] and the position between the two depths.
    (Both rest on [x * (1 / x)] being 1, which rounding does not keep; see
    the replay on floats below.) *)
Lemma interpolate_between (a0 a1 : Z) (l0 l1 : Q) :
  0 < l0 -> 0 < l1 -> (a0 <= a1)%Z ->
  exists w p : Q,
    hitWeight (ofZ a0, Fin l0) (ofZ a1, Fin l1) = Fin w /\
    0 < w <= 1 /\
    interpolate (ofZ a0, Fin l0) (ofZ a1, Fin l1) = Fin p /\
    inject_Z a0 <= p <= inject_Z a1.
Proof.
  intros Hl0 Hl1 Ha.
  assert (Ha' : inject_Z a0 <= inject_Z a1) by (rewrite <- Zle_Qle; exact Ha).
  set (x := l0 / inject_Z 255).
  set (y := l1 / inject_Z 255).
  assert (Ex : hitLevel (ofZ a0, Fin l0) = Fin x).
  { unfold hitLevel, ofZ. cbn [snd]. apply ndiv_Fin. discriminate. }
  assert (Ey : hitLevel (ofZ a1, Fin l1) = Fin y).
  { unfold hitLevel, ofZ. cbn [snd]. apply ndiv_Fin. discriminate. }
  assert (Hx : 0 < x).
  { unfold x. apply Qlt_shift_div_l; [reflexivity | lra]. }
  assert (Hy : 0 < y).
  { unfold y. apply Qlt_shift_div_l; [reflexivity | lra]. }
  unfold interpolate, hitWeight, hitFactor, hitDirection.
  rewrite Ex, Ey. cbn [fst]. unfold ngt. cbn [nlt].
  destruct (Qlt_bool y x) eqn:Edir.
  - apply Qlt_bool_iff in Edir.
    unfold ofZ. rewrite (ndiv_Fin (inject_Z 1) (b := x)) by lra.
    set (f := inject_Z 1 / x).
    assert (Hf : x * f == 1) by (unfold f; field; lra).
    assert (Hfpos : 0 < f) by nra.
    cbn [nmul nsub nadd nneg].
    eexists. eexists. split; [reflexivity |].
    assert (Hw : 0 < y * f * (x * f) <= 1).
    { rewrite Hf. split; nra. }
    split; [exact Hw |]. split; [reflexivity |].
    set (w := y * f * (x * f)) in *. destruct Hw as [Hw0 Hw1].
    set (p0 := inject_Z a0) in *. set (p1 := inject_Z a1) in *.
    change (inject_Z 1) with 1.
    clearbody w p0 p1. clear - Ha' Hw0 Hw1.
    assert (Hprod : 0 <= (p1 - p0) * (1 - w)) by (apply Qmult_le_0_compat; lra).
    assert (Hprod' : 0 <= (p1 - p0) * w) by (apply Qmult_le_0_compat; lra).
    split; lra.
  - apply Qlt_bool_false in Edir.
    unfold ofZ. rewrite (ndiv_Fin (inject_Z 1) (b := y)) by lra.
    set (f := inject_Z 1 / y).
    assert (Hf : y * f == 1) by (unfold f; field; lra).
    assert (Hfpos : 0 < f) by nra.
    cbn [nmul nsub nadd nneg].
    eexists. eexists. split; [reflexivity |].
    assert (Hw : 0 < y * f * (x * f) <= 1).
    { rewrite Hf. split; nra. }
    split; [exact Hw |]. split; [reflexivity |].
    set (w := y * f * (x * f)) in *. destruct Hw as [Hw0 Hw1].
    set (p0 := inject_Z a0) in *. set (p1 := inject_Z a1) in *.
    change (inject_Z 1) with 1.
    clearbody w p0 p1. clear - Ha' Hw0 Hw1.
    assert (Hprod : 0 <= (p1 - p0) * (1 - w)) by (apply Qmult_le_0_compat; lra).
    assert (Hprod' : 0 <= (p1 - p0) * w) by (apply Qmult_le_0_compat; lra).
    split; lra.
Qed.

(** A sample above a threshold that is not negative is a positive number. *)
Lemma sample_above_threshold `{Platform} (this : CropDetector) (pixel : list byte)
    (bg : num) :
  0 <= rayThreshold (settings this) ->
  (rayLevel this pixel bg >? Fin (rayThreshold (settings this)))%num = true ->
  exists l : Q, rayLevel this pixel bg = Fin l /\ 0 < l <= 255.
Proof.
  intros Ht Hgt. unfold ngt in Hgt.
  destruct (rayLevel_cases this pixel bg) as [E | Hr].
  - rewrite E in Hgt. discriminate.
  - destruct (rayLevel this pixel bg) as [l | | |]; try contradiction.
    simpl in Hgt, Hr. apply Qlt_bool_iff in Hgt. exists l. split; [reflexivity | lra].
Qed.

(** X22.  On the rays none of whose samples is [NaN] (with a threshold
    that is not negative, as the default 15): the two hits of a ray that
    returns a position are the samples at two consecutive depths [a0] and
    [a0 + 1] within [[0, maxDepth - 1]], both levels are above the
    threshold, hence positive, and at most 255, and the position returned
    is the interpolation of these two hits. *)
Lemma castEdgeRay_consecutive `{Platform} (this : CropDetector) (im : ImageData)
    (side : Z) (b bg : num) (maxDepth : Z) (tr tr' : list event) (pos : num) :
  image this = Some im ->
  valid_side side ->
  0 <= rayThreshold (settings this) ->
  (forall a, (0 <= a < maxDepth)%Z -> sampleAt this im side b bg a <> NaN) ->
  _castEdgeRay this b side maxDepth bg tr = (Ok (Some pos), tr') ->
  exists (a0 : Z) (l0 l1 : Q),
    _castEdgeRay_hits this b side maxDepth bg tr
      = (Ok (Some [(ofZ a0, Fin l0); (ofZ (a0 + 1), Fin l1)]), tr') /\
    (0 <= a0)%Z /\ (a0 + 1 <= maxDepth - 1)%Z /\
    sampleAt this im side b bg a0 = Fin l0 /\
    sampleAt this im side b bg (a0 + 1) = Fin l1 /\
    rayThreshold (settings this) < l0 <= 255 /\
    rayThreshold (settings this) < l1 <= 255 /\
    0 < l0 /\ 0 < l1 /\
    pos = interpolate (ofZ a0, Fin l0) (ofZ (a0 + 1), Fin l1).
Proof.
  intros Him Hside Ht Hnum Hrun.
  unfold _castEdgeRay, bind in Hrun.
  destruct (_castEdgeRay_hits this b side maxDepth bg tr)
    as [[[found |] | e] tr1] eqn:Ehits; try discriminate.
  unfold _castEdgeRay_hits in Ehits.
  assert (Hnum' : forall a', (0 <= a' < 0 + Z.of_nat (Z.to_nat maxDepth))%Z ->
                             sampleAt this im side b bg a' <> NaN).
  { intros a' Ha'. apply Hnum. lia. }
  destruct (@castEdgeRay_loop_consecutive _ this im side b bg Him Hside
              (Z.to_nat maxDepth) 0%Z [] tr tr1 found Hnum'
              (or_introl eq_refl) Ehits)
    as (a0 & _ & Hlo & Hhi & -> & Hl0 & Hl1).
  specialize (Hlo eq_refl).
  unfold sampleAt in *.
  destruct (@sample_above_threshold _ _ _ _ Ht Hl0) as (l0 & E0 & Hp0).
  destruct (@sample_above_threshold _ _ _ _ Ht Hl1) as (l1 & E1 & Hp1).
  rewrite E0, E1 in *.
  cbn [normalizeRayHits lift ret] in Hrun.
  injection Hrun as <- <-.
  unfold ngt in Hl0, Hl1. cbn [nlt] in Hl0, Hl1.
  apply Qlt_bool_iff in Hl0. apply Qlt_bool_iff in Hl1.
  exists a0, l0, l1.
  assert (Hz : (0 <= a0)%Z) by lia.
  assert (Hd : (a0 + 1 <= maxDepth - 1)%Z) by lia.
  repeat split; try assumption; try lra.
Qed.

(** C10.  On the canvas of the grey 94 with white, the grey 100 and white
    down column 5, the background brightness is 94, so the black point 100
    meets the white point and the grey 100 normalizes to [0 / 0]: the
    sample at depth 1 is [NaN], which neither adds a hit nor clears the
    list.  The ray from the top at [b = 5] returns depth 0 from the hits at
    depths 0 and 2, which are not consecutive, and [detectCropBox] reports
    0 as the top edge. *)
Theorem castEdgeRay_hits_not_consecutive `{Platform} (m : Metadata) :
  let this := streak_detector m in
  exists (bg l0 l1 : num) (pixel : list byte),
    fst (_getBgBrightness this []) = Ok bg /\
    bg ≡ ofZ 94 /\
    fst (_getPixelFromEdge this SIDE_TOP (ofZ 5) (ofZ 1) []) = Ok (Some pixel) /\
    rayLevel this pixel bg = NaN /\
    fst (_castEdgeRay_hits this (ofZ 5) SIDE_TOP 4 bg [])
      = Ok (Some [(ofZ 0, l0); (ofZ 2, l1)]) /\
    l0 ≡ ofZ 255 /\
    l1 ≡ ofZ 255 /\
    exists (pos : num) (box : CropBox),
      fst (_castEdgeRay this (ofZ 5) SIDE_TOP 4 bg []) = Ok (Some pos) /\
      pos ≡ ofZ 0 /\
      fst (detectCropBox this []) = Ok box /\
      top (cropped_edges box) ≡ ofZ 0.
Proof.
  cbv zeta. do 4 eexists.
  split; [vm_compute; reflexivity |].
  split; [vm_compute; reflexivity |].
  split; [vm_compute; reflexivity |].
  split; [vm_compute; reflexivity |].
  split; [vm_compute; reflexivity |].
  split; [vm_compute; reflexivity |].
  split; [vm_compute; reflexivity |].
  do 2 eexists.
  split; [vm_compute; reflexivity |].
  split; [vm_compute; reflexivity |].
  split; vm_compute; reflexivity.
Qed.

(** The hypotheses of the lemma on rays without [NaN] hold on the ray from
    the top at [b = 10] of the 20 by 20 canvas with a black frame. *)
Example castEdgeRay_consecutive_on_frame :
  exists (a0 : Z) (l0 l1 : Q),
    fst (_castEdgeRay_hits narrow_target_detector (ofZ 10) SIDE_TOP 8 (ofZ 0) [])
      = Ok (Some [(ofZ a0, Fin l0); (ofZ (a0 + 1), Fin l1)]) /\
    (0 <= a0)%Z /\ (a0 + 1 <= 8 - 1)%Z /\
    0 < l0 /\ 0 < l1 /\
    fst (_castEdgeRay narrow_target_detector (ofZ 10) SIDE_TOP 8 (ofZ 0) [])
      = Ok (Some (interpolate (ofZ a0, Fin l0) (ofZ (a0 + 1), Fin l1))).
Proof.
  edestruct (@castEdgeRay_consecutive bare_platform narrow_target_detector
               narrow_target_image SIDE_TOP (ofZ 10) (ofZ 0) 8 [])
    as (a0 & l0 & l1 & Ehits & Hlo & Hhi & _ & _ & _ & _ & Hp0 & Hp1 & Epos).
  - reflexivity.
  - left. reflexivity.
  - discriminate.
  - intros a Ha.
    assert (Hcases : (a = 0 \/ a = 1 \/ a = 2 \/ a = 3 \/ a = 4 \/ a = 5
                      \/ a = 6 \/ a = 7)%Z) by lia.
    destruct Hcases as [-> | [-> | [-> | [-> | [-> | [-> | [-> | ->]]]]]]];
      vm_compute; discriminate.
  - vm_compute. reflexivity.
  - exists a0, l0, l1. rewrite Ehits, <- Epos.
    split; [reflexivity |]. do 4 (split; [assumption |]).
    vm_compute. reflexivity.
Defined.

(** * Further properties of the code *)

(** ** Clamping *)

Lemma clamp_Fin (v lo hi : Q) :
  clamp (Fin v) (Fin lo) (Fin hi)
  = if Qlt_bool v hi
    then (if Qlt_bool lo v then Fin v else Fin lo)
    else (if Qlt_bool lo hi then Fin hi else Fin lo).
Proof.
  unfold clamp, Math_max, Math_min. simpl.
  destruct (Qlt_bool v hi); reflexivity.
Qed.

(** The value of [clamp8] on a number. *)
Lemma clamp8_Fin (q : Q) :
  exists y : Q,
    clamp8 (Fin q) = Fin y /\
    0 <= y <= 255 /\
    (q <= 0 -> y == 0) /\
    (255 <= q -> y == 255) /\
    (0 <= q <= 255 -> y == q).
Proof.
  unfold clamp8, ofZ. rewrite clamp_Fin.
  change (inject_Z 0) with 0. change (inject_Z 255) with 255.
  destruct (Qlt_bool q 255) eqn:E1; [destruct (Qlt_bool 0 q) eqn:E2 |];
    simpl; eexists; (split; [reflexivity |]);
    try apply Qlt_bool_iff in E1; try apply Qlt_bool_false in E1;
    try apply Qlt_bool_iff in E2; try apply Qlt_bool_false in E2;
    repeat split; intros; lra.
Qed.

(** [clamp] between two ordered bounds. *)
Lemma clamp_Fin_within (value lo hi : Q) :
  lo <= hi ->
  exists y : Q,
    clamp (Fin value) (Fin lo) (Fin hi) = Fin y /\
    lo <= y <= hi /\
    (lo <= value <= hi -> y == value) /\
    (value <= lo -> y == lo) /\
    (hi <= value -> y == hi).
Proof.
  intro Hle. rewrite clamp_Fin.
  destruct (Qlt_bool value hi) eqn:E1; [destruct (Qlt_bool lo value) eqn:E2 |
                                         destruct (Qlt_bool lo hi) eqn:E3];
    eexists; (split; [reflexivity |]);
    try apply Qlt_bool_iff in E1; try apply Qlt_bool_false in E1;
    try apply Qlt_bool_iff in E2; try apply Qlt_bool_false in E2;
    try apply Qlt_bool_iff in E3; try apply Qlt_bool_false in E3;
    repeat split; intros; lra.
Qed.

(** X1.  [clamp] with [min <= max] lands in [[min, max]]: it is the value
    itself when the value lies there, [min] below and [max] above. *)
Theorem clamp_within (value lo hi : Q) :
  lo <= hi ->
  exists y : Q,
    clamp (Fin value) (Fin lo) (Fin hi) = Fin y /\
    lo <= y <= hi /\
    (lo <= value <= hi -> y == value) /\
    (value <= lo -> y == lo) /\
    (hi <= value -> y == hi).
Proof.
  exact (@clamp_Fin_within value lo hi).
Qed.

Lemma clamp_within_witness :
  exists y : Q,
    clamp (Fin 300) (Fin 0) (Fin 255) = Fin y /\
    0 <= y <= 255 /\
    (0 <= 300 <= 255 -> y == 300) /\
    (300 <= 0 -> y == 0) /\
    (255 <= 300 -> y == 255).
Proof.
  apply (@clamp_within 300 0 255). discriminate.
Defined.

(** X2.  [clamp] called with [min > max] returns [min], whatever the
    value; [NaN] goes through [clamp] whatever the bounds. *)
Theorem clamp_crossed_bounds (value : num) (lo hi : Q) :
  hi < lo ->
  value <> NaN ->
  clamp value (Fin lo) (Fin hi) = Fin lo /\
  clamp NaN (Fin lo) (Fin hi) = NaN.
Proof.
  intros Hlt Hv. split; [| reflexivity].
  assert (E1 : Qlt_bool lo hi = false) by (apply Qlt_bool_false; lra).
  destruct value as [v | | |]; try congruence.
  - rewrite clamp_Fin, E1.
    destruct (Qlt_bool v hi) eqn:E2; [| reflexivity].
    apply Qlt_bool_iff in E2.
    assert (E3 : Qlt_bool lo v = false) by (apply Qlt_bool_false; lra).
    rewrite E3. reflexivity.
  - unfold clamp, Math_max, Math_min. simpl. rewrite E1. reflexivity.
  - unfold clamp, Math_max, Math_min. simpl. reflexivity.
Qed.

Lemma clamp_crossed_bounds_witness :
  clamp (Fin 7) (Fin 10) (Fin 5) = Fin 10 /\
  clamp NaN (Fin 10) (Fin 5) = NaN.
Proof.
  apply (@clamp_crossed_bounds (Fin 7) 10 5); [reflexivity | discriminate].
Defined.

(** X3.  [clamp8] sends every number into [[0, 255]], the infinities to the
    two ends, leaves the numbers of [[0, 255]] as they are, and lets [NaN]
    through. *)
Theorem clamp8_total :
  (forall x : num, x <> NaN -> in_byte_range (clamp8 x)) /\
  (forall q : Q, 0 <= q <= 255 -> clamp8 (Fin q) ≡ Fin q) /\
  (forall x : num, clamp8 (clamp8 x) ≡ clamp8 x) /\
  clamp8 PInf = ofZ 255 /\
  clamp8 NInf = ofZ 0 /\
  clamp8 NaN = NaN.
Proof.
  split; [exact clamp8_range |].
  split.
  { intros q Hq. destruct (clamp8_Fin q) as (y & -> & _ & _ & _ & Hy).
    simpl. auto. }
  split; [| repeat split].
  intro x. destruct (clamp8_cases x) as [-> | Hr]; [reflexivity |].
  destruct (clamp8 x) as [q | | |]; try contradiction.
  destruct (clamp8_Fin q) as (y & -> & _ & _ & _ & Hy). simpl. auto.
Qed.

(** ** Brightness and normalization *)

(** X4.  The brightness of three channels of [[0, 255]] is a number of
    [[0, 255]] that grows with each channel; its ends are black and white:
    [calcBrightness(0, 0, 0)] is 0 and [calcBrightness(255, 255, 255)] is
    255. *)
Theorem calcBrightness_monotone (r g b r' g' b' : Q) :
  0 <= r <= r' -> 0 <= g <= g' -> 0 <= b <= b' ->
  r' <= 255 -> g' <= 255 -> b' <= 255 ->
  exists y y' : Q,
    calcBrightness (Fin r) (Fin g) (Fin b) = Fin y /\
    calcBrightness (Fin r') (Fin g') (Fin b') = Fin y' /\
    0 <= y /\ y <= y' /\ y' <= 255 /\
    calcBrightness (ofZ 0) (ofZ 0) (ofZ 0) ≡ ofZ 0 /\
    calcBrightness (ofZ 255) (ofZ 255) (ofZ 255) ≡ ofZ 255.
Proof.
  intros Hr Hg Hb Hr' Hg' Hb'. do 2 eexists.
  split; [reflexivity |]. split; [reflexivity |].
  split; [lra |]. split; [lra |]. split; [lra |].
  split; reflexivity.
Qed.

Lemma calcBrightness_monotone_witness :
  exists y y' : Q,
    calcBrightness (Fin 0) (Fin 94) (Fin 100) = Fin y /\
    calcBrightness (Fin 15) (Fin 94) (Fin 255) = Fin y' /\
    0 <= y /\ y <= y' /\ y' <= 255 /\
    calcBrightness (ofZ 0) (ofZ 0) (ofZ 0) ≡ ofZ 0 /\
    calcBrightness (ofZ 255) (ofZ 255) (ofZ 255) ≡ ofZ 255.
Proof.
  apply (@calcBrightness_monotone 0 94 100 15 94 255);
    try split; vm_compute; discriminate.
Defined.

(** [Math.pow(x, 1 / 1)] is [x]. *)
Lemma Math_pow_gamma1 `{Platform} (b : Q) :
  exists p : Q, Math_pow (Fin b) (ofZ 1 / Fin 1)%num = Fin p /\ p == b.
Proof.
  unfold Math_pow, ofZ. cbn [ndiv]. change (Qeq_bool 1 0) with false. cbv iota.
  change (Qeq_bool (inject_Z 1 / 1) 0) with false. cbv iota.
  destruct (Qeq_bool b 0) eqn:Eb.
  - apply Qeq_bool_iff in Eb. exists 0. split; [reflexivity | lra].
  - exists b. split; reflexivity.
Qed.

(** With gamma 1 and a black point below the white point, normalization is
    the linear ramp from the black point to the white point, flat outside. *)
Lemma calcNormalizedColor_gamma1 `{Platform} (v bp wp : Q) :
  0 <= v <= 255 -> 0 <= bp -> bp < wp -> wp <= 255 ->
  exists y : Q,
    calcNormalizedColor (Fin v) (Fin bp) (Fin wp) (Fin 1) = Fin y /\
    0 <= y <= 255 /\
    (v <= bp -> y == 0) /\
    (wp <= v -> y == 255) /\
    (bp <= v <= wp -> y == 255 * (v - bp) / (wp - bp)).
Proof.
  intros Hv Hbp Hlt Hwp. unfold calcNormalizedColor.
  destruct (clamp8_Fin bp) as (bk & -> & _ & _ & _ & Hbk).
  destruct (clamp8_Fin wp) as (w1 & -> & _ & _ & _ & Hw1).
  destruct (clamp8_Fin v) as (cv & -> & _ & _ & _ & Hcv).
  assert (Ebk : bk == bp) by (apply Hbk; lra).
  assert (Ew1 : w1 == wp) by (apply Hw1; lra).
  assert (Ecv : cv == v) by (apply Hcv; lra).
  destruct (@clamp_Fin_within w1 bk (inject_Z 255)) as (wh & Ewh & _ & Hwh & _).
  { change (inject_Z 255) with 255. lra. }
  unfold ofZ at 1. rewrite Ewh.
  assert (Ewh' : wh == wp).
  { rewrite <- Ew1. apply Hwh. change (inject_Z 255) with 255. lra. }
  clear Hbk Hw1 Hcv Hwh Ewh.
  unfold nsub. cbn [nneg nadd]. rewrite ndiv_Fin by lra.
  destruct (Math_pow_gamma1 ((cv + - bk) / (wh + - bk))) as (p & -> & Ep).
  unfold ofZ at 1. cbn [nmul].
  destruct (clamp8_Fin (p * inject_Z 255)) as (y & -> & Hy & Hneg & Hbig & Hmid).
  change (inject_Z 255) with 255 in *.
  exists y. split; [reflexivity |]. split; [exact Hy |].
  assert (Hd : 0 < wh - bk) by lra.
  assert (Ep' : p * (wh - bk) == cv - bk).
  { rewrite Ep. field. lra. }
  repeat split.
  - intro Hle. apply Hneg. nra.
  - intro Hge. apply Hbig. nra.
  - intro Hin.
    assert (Hp : 0 <= p <= 1) by (split; nra).
    rewrite Hmid by nra. rewrite Ep.
    rewrite Ecv, Ebk, Ewh'. field. lra.
Qed.

(** X5.  With gamma 1 and [0 <= black < white <= 255], [calcNormalizedColor]
    is 0 up to the black point, 255 from the white point on, and
    [255 * (value - black) / (white - black)] in between; it never
    decreases when the value grows. *)
Theorem calcNormalizedColor_ramp `{Platform} (v v' bp wp : Q) :
  0 <= v <= 255 -> 0 <= v' <= 255 -> 0 <= bp -> bp < wp -> wp <= 255 ->
  exists y y' : Q,
    calcNormalizedColor (Fin v) (Fin bp) (Fin wp) (Fin 1) = Fin y /\
    calcNormalizedColor (Fin v') (Fin bp) (Fin wp) (Fin 1) = Fin y' /\
    (v <= bp -> y == 0) /\
    (wp <= v -> y == 255) /\
    (bp <= v <= wp -> y == 255 * (v - bp) / (wp - bp)) /\
    (v <= v' -> y <= y').
Proof.
  intros Hv Hv' Hbp Hlt Hwp.
  destruct (calcNormalizedColor_gamma1 Hv Hbp Hlt Hwp)
    as (y & Ey & Hy & Hlow & Hhigh & Hmid).
  destruct (calcNormalizedColor_gamma1 Hv' Hbp Hlt Hwp)
    as (y' & Ey' & Hy' & Hlow' & Hhigh' & Hmid').
  exists y, y'. repeat split; try assumption.
  intro Hle.
  destruct (Qlt_le_dec v bp) as [Hvb | Hvb].
  { rewrite Hlow by lra. lra. }
  destruct (Qlt_le_dec wp v') as [Hvw | Hvw].
  { rewrite Hhigh' by lra. lra. }
  rewrite Hmid, Hmid' by lra.
  assert (Hd : 0 < wp - bp) by lra.
  apply Qle_shift_div_l; [exact Hd |].
  assert (E : 255 * (v - bp) / (wp - bp) * (wp - bp) == 255 * (v - bp))
    by (field; lra).
  rewrite E. lra.
Qed.

Lemma calcNormalizedColor_ramp_witness :
  exists y y' : Q,
    @calcNormalizedColor bare_platform (Fin 33) (Fin 6) (Fin 60) (Fin 1) = Fin y /\
    @calcNormalizedColor bare_platform (Fin 200) (Fin 6) (Fin 60) (Fin 1) = Fin y' /\
    (33 <= 6 -> y == 0) /\
    (60 <= 33 -> y == 255) /\
    (6 <= 33 <= 60 -> y == 255 * (33 - 6) / (60 - 6)) /\
    (33 <= 200 -> y <= y').
Proof.
  apply (@calcNormalizedColor_ramp bare_platform 33 200 6 60);
    try split; discriminate || reflexivity.
Defined.

(** X6.  When the white point is not above the black point (both clamped),
    the divisor [white - black] is 0: with gamma 1 a value above the black
    point normalizes to 255, a value below it to 0, and the black point
    itself to [NaN]. *)
Theorem calcNormalizedColor_zero_divisor `{Platform} (v bp wp : Q) :
  0 <= v <= 255 -> 0 <= bp <= 255 -> wp <= bp ->
  (bp < v -> calcNormalizedColor (Fin v) (Fin bp) (Fin wp) (Fin 1) = ofZ 255) /\
  (v < bp -> calcNormalizedColor (Fin v) (Fin bp) (Fin wp) (Fin 1) = ofZ 0) /\
  (v == bp -> calcNormalizedColor (Fin v) (Fin bp) (Fin wp) (Fin 1) = NaN).
Proof.
  intros Hv Hbp Hle. unfold calcNormalizedColor.
  destruct (clamp8_Fin bp) as (bk & -> & _ & _ & _ & Hbk).
  destruct (clamp8_Fin wp) as (w1 & -> & Hw1r & Hw1n & _ & Hw1).
  destruct (clamp8_Fin v) as (cv & -> & _ & _ & _ & Hcv).
  assert (Ebk : bk == bp) by (apply Hbk; lra).
  assert (Ecv : cv == v) by (apply Hcv; lra).
  assert (Hw1le : w1 <= bk).
  { destruct (Qlt_le_dec wp 0) as [Hneg | Hpos].
    - rewrite Hw1n by lra. lra.
    - rewrite Hw1 by lra. lra. }
  destruct (@clamp_Fin_within w1 bk (inject_Z 255)) as (wh & Ewh & _ & _ & Hwh & _).
  { change (inject_Z 255) with 255. lra. }
  change (Fin (inject_Z 255)) with (ofZ 255) in Ewh.
  rewrite Ewh. specialize (Hwh Hw1le).
  clear Hbk Hw1 Hcv Hw1n Ewh.
  unfold nsub. cbn [nneg nadd].
  assert (Hz : Qeq_bool (wh + - bk) 0 = true) by (apply Qeq_bool_iff; lra).
  assert (Hdiv : (Fin (cv + - bk) / Fin (wh + - bk))%num
                 = inf_of_sign (Qnum (cv + - bk) ?= 0)%Z).
  { unfold ndiv. rewrite Hz. reflexivity. }
  rewrite Hdiv.
  assert (Hsign : forall q : Q,
             (0 < q -> (Qnum q ?= 0)%Z = Gt) /\
             (q < 0 -> (Qnum q ?= 0)%Z = Lt) /\
             (q == 0 -> (Qnum q ?= 0)%Z = Eq)).
  { intro q. unfold Qlt, Qeq. simpl. rewrite !Z.mul_1_r.
    repeat split; intro Hq;
      [apply Z.compare_gt_iff | apply Z.compare_lt_iff | apply Z.compare_eq_iff];
      lia. }
  destruct (Hsign (cv + - bk)) as (Hgt & Hlt & Heq).
  repeat split; intro Hcase.
  - rewrite Hgt by lra. reflexivity.
  - rewrite Hlt by lra. reflexivity.
  - rewrite Heq by lra. reflexivity.
Qed.

Lemma calcNormalizedColor_zero_divisor_witness :
  (100 < 255 ->
   @calcNormalizedColor bare_platform (Fin 255) (Fin 100) (Fin 60) (Fin 1) = ofZ 255) /\
  (255 < 100 ->
   @calcNormalizedColor bare_platform (Fin 255) (Fin 100) (Fin 60) (Fin 1) = ofZ 0) /\
  (255 == 100 ->
   @calcNormalizedColor bare_platform (Fin 255) (Fin 100) (Fin 60) (Fin 1) = NaN).
Proof.
  apply (@calcNormalizedColor_zero_divisor bare_platform 255 100 60);
    try split; discriminate.
Defined.

(** X7.  With gamma 1 and [0 <= black < white <= 255], a pixel whose three
    channels are at most the black point has normalized brightness 0, and a
    pixel whose three channels are at least the white point has 255. *)
Theorem calcNormalizedBrightness_saturates `{Platform} (r g b bp wp : Q) :
  0 <= r <= 255 -> 0 <= g <= 255 -> 0 <= b <= 255 ->
  0 <= bp -> bp < wp -> wp <= 255 ->
  exists y : Q,
    calcNormalizedBrightness (Fin r) (Fin g) (Fin b) (Fin bp) (Fin wp) (Fin 1)
      = Fin y /\
    0 <= y <= 255 /\
    (r <= bp -> g <= bp -> b <= bp -> y == 0) /\
    (wp <= r -> wp <= g -> wp <= b -> y == 255).
Proof.
  intros Hr Hg Hb Hbp Hlt Hwp. unfold calcNormalizedBrightness.
  destruct (calcNormalizedColor_gamma1 Hr Hbp Hlt Hwp) as (yr & -> & Hyr & Lr & Ur & _).
  destruct (calcNormalizedColor_gamma1 Hg Hbp Hlt Hwp) as (yg & -> & Hyg & Lg & Ug & _).
  destruct (calcNormalizedColor_gamma1 Hb Hbp Hlt Hwp) as (yb & -> & Hyb & Lb & Ub & _).
  destruct (@calcBrightness_cases (Fin yr) (Fin yg) (Fin yb))
    as [E | Hrange]; try (right; exact Hyr || exact Hyg || exact Hyb).
  { discriminate E. }
  eexists. split; [reflexivity |]. split; [exact Hrange |]. split.
  - intros H1 H2 H3. rewrite (Lr H1), (Lg H2), (Lb H3). reflexivity.
  - intros H1 H2 H3. rewrite (Ur H1), (Ug H2), (Ub H3). reflexivity.
Qed.

Lemma calcNormalizedBrightness_saturates_witness :
  exists y : Q,
    @calcNormalizedBrightness bare_platform
      (Fin 0) (Fin 3) (Fin 6) (Fin 6) (Fin 60) (Fin 1) = Fin y /\
    0 <= y <= 255 /\
    (0 <= 6 -> 3 <= 6 -> 6 <= 6 -> y == 0) /\
    (60 <= 0 -> 60 <= 3 -> 60 <= 6 -> y == 255).
Proof.
  apply (@calcNormalizedBrightness_saturates bare_platform 0 3 6 6 60);
    try split; discriminate.
Defined.

Lemma calcNormalizedColor_range_witness :
  in_byte_range
    (@calcNormalizedColor bare_platform (Fin 200) (Fin 6) (Fin 60) (Fin 2)).
Proof.
  apply (@calcNormalizedColor_range bare_platform (Fin 200) (Fin 6) (Fin 60) 2).
  - discriminate.
  - vm_compute. discriminate.
  - reflexivity.
  - left. reflexivity.
Defined.

(** ** The pixel buffer *)

Lemma Qlt_bool_comp (a a' b b' : Q) :
  a == a' -> b == b' -> Qlt_bool a b = Qlt_bool a' b'.
Proof.
  intros Ea Eb. destruct (Qlt_bool a' b') eqn:E.
  - apply Qlt_bool_iff. apply Qlt_bool_iff in E. lra.
  - apply Qlt_bool_false. apply Qlt_bool_false in E. lra.
Qed.

Lemma adjustOffset_comp (q q' : Q) (len : Z) :
  q == q' -> adjustOffset (Fin q) len = adjustOffset (Fin q') len.
Proof.
  intro E. unfold adjustOffset, Qtrunc.
  rewrite (Qlt_bool_comp (a := q) (a' := q') (b := 0) (b' := 0)) by (exact E || reflexivity).
  rewrite (Qfloor_comp _ _ E), (Qceiling_comp _ _ E). reflexivity.
Qed.

Lemma adjustOffset_ofZ (o len : Z) :
  (0 <= o <= len)%Z -> adjustOffset (ofZ o) len = o.
Proof.
  intro Ho. unfold adjustOffset, ofZ, Qtrunc.
  rewrite Qfloor_Z, Qceiling_Z.
  destruct (Qlt_bool (inject_Z o) 0); destruct (o <? 0)%Z eqn:E1;
    try (apply Z.ltb_lt in E1; lia);
    destruct (o <? len)%Z eqn:E2; try reflexivity;
    apply Z.ltb_ge in E2; lia.
Qed.

(** Equal offsets give the same slice. *)
Lemma Buffer_slice_comp (buf : Buffer) (s s' e e' : Q) :
  s == s' -> e == e' ->
  Buffer_slice buf (Fin s) (Fin e) = Buffer_slice buf (Fin s') (Fin e').
Proof.
  intros Es Ee. unfold Buffer_slice.
  rewrite (adjustOffset_comp _ Es), (adjustOffset_comp _ Ee). reflexivity.
Qed.

(** A slice that lies within the buffer. *)
Lemma Buffer_slice_within (buf : Buffer) (o n : Z) :
  (0 <= o)%Z -> (0 <= n)%Z -> (o + n <= buf_length buf)%Z ->
  Buffer_slice buf (ofZ o) (ofZ (o + n))
  = map (fun k => buf_byte buf (o + Z.of_nat k)) (List.seq 0 (Z.to_nat n)).
Proof.
  intros Ho Hn Hlen. unfold Buffer_slice.
  rewrite !adjustOffset_ofZ by lia.
  destruct (o <? o + n)%Z eqn:E.
  - replace (o + n - o)%Z with n by lia. reflexivity.
  - apply Z.ltb_ge in E. replace n with 0%Z by lia. reflexivity.
Qed.

Lemma pixelOffset_ofZ (i : Info) (x y : num) (xz yz : Z) :
  x ≡ ofZ xz -> y ≡ ofZ yz ->
  exists q : Q,
    pixelOffset i x y = Fin q /\
    q == inject_Z ((yz * width i + xz) * channels i) /\
    (pixelOffset i x y + ofZ (channels i))%num = Fin (q + inject_Z (channels i)).
Proof.
  intros Ex Ey. destruct x as [x | | |], y as [y | | |]; try contradiction.
  simpl in Ex, Ey. unfold pixelOffset, ofZ. cbn [nmul nadd].
  eexists. split; [reflexivity |]. split; [| reflexivity].
  rewrite Ex, Ey. rewrite !inject_Z_mult, !inject_Z_plus, !inject_Z_mult. ring.
Qed.

(** Within the canvas [_getPixelAt] returns the bytes of the pixel, all
    [channels] of them, and logs one slice. *)
Lemma getPixelAt_at `{Platform} (this : CropDetector) (im : ImageData)
    (x y : num) (xz yz : Z) (tr : list event) :
  image this = Some im ->
  well_formed im ->
  x ≡ ofZ xz -> y ≡ ofZ yz ->
  (0 <= xz < width (info im))%Z ->
  (0 <= yz < height (info im))%Z ->
  exists ev : event,
    _getPixelAt this x y tr = (Ok (pixelBytes im xz yz), ev :: tr) /\
    is_pixel_read ev.
Proof.
  intros Him (Hw & Hh & Hc & Hlen) Ex Ey Hx Hy.
  unfold _getPixelAt, bind, defined, tell, ret. rewrite Him. cbn beta iota.
  destruct (@pixelOffset_ofZ (info im) x y xz yz Ex Ey) as (q & Eq & Hq & Estop).
  rewrite Estop, Eq.
  set (o := ((yz * width (info im) + xz) * channels (info im))%Z) in *.
  assert (Eslice : Buffer_slice (data im) (Fin q)
                     (Fin (q + inject_Z (channels (info im))))
                   = pixelBytes im xz yz).
  { rewrite (@Buffer_slice_comp (data im) q (inject_Z o)
               (q + inject_Z (channels (info im)))
               (inject_Z (o + channels (info im)))).
    - change (Fin (inject_Z o)) with (ofZ o).
      change (Fin (inject_Z (o + channels (info im))))
        with (ofZ (o + channels (info im))).
      assert (Hp : (0 <= yz * width (info im) + xz)%Z) by nia.
      assert (Hq' : (yz * width (info im) + xz + 1
                     <= width (info im) * height (info im))%Z) by nia.
      rewrite Buffer_slice_within; [reflexivity | | exact Hc |].
      + unfold o. apply Z.mul_nonneg_nonneg; assumption.
      + rewrite Hlen. unfold o.
        apply (Z.mul_le_mono_nonneg_r _ _ (channels (info im))) in Hq';
          [lia | exact Hc].
    - exact Hq.
    - rewrite Hq, inject_Z_plus. reflexivity. }
  rewrite Eslice. eexists. split; [reflexivity | exact I].
Qed.

(** X8.  For a column and a row of the canvas, [_getPixelAt] returns the
    [channels] bytes of that pixel, none missing, and takes one slice from
    the buffer. *)
Theorem getPixelAt_in_bounds `{Platform} (this : CropDetector) (im : ImageData)
    (x y : Z) (tr : list event) :
  image this = Some im ->
  well_formed im ->
  (0 <= x < width (info im))%Z ->
  (0 <= y < height (info im))%Z ->
  exists ev : event,
    _getPixelAt this (ofZ x) (ofZ y) tr = (Ok (pixelBytes im x y), ev :: tr) /\
    is_pixel_read ev /\
    List.length (pixelBytes im x y) = Z.to_nat (channels (info im)).
Proof.
  intros Him Hwf Hx Hy.
  destruct (@getPixelAt_at _ this im (ofZ x) (ofZ y) x y tr Him Hwf)
    as (ev & Hrun & Hev); try assumption; try (simpl; reflexivity).
  exists ev. repeat split; try assumption.
  unfold pixelBytes. rewrite length_map, length_seq. reflexivity.
Qed.

(** X9.  [_getPixelAt] does not check [x] against the width: one row
    further right is one row further down. *)
Theorem getPixelAt_row_wrap `{Platform} (this : CropDetector) (im : ImageData)
    (x y : Z) (tr : list event) :
  image this = Some im ->
  fst (_getPixelAt this (ofZ (x + width (info im))) (ofZ y) tr)
  = fst (_getPixelAt this (ofZ x) (ofZ (y + 1)) tr).
Proof.
  intro Him. unfold _getPixelAt, bind, defined, tell, ret, throw.
  rewrite Him. cbn beta iota. cbn [fst]. f_equal.
  unfold pixelOffset, ofZ. cbn [nmul nadd].
  apply Buffer_slice_comp.
  - rewrite !inject_Z_plus. change (inject_Z 1) with 1. ring.
  - rewrite !inject_Z_plus. change (inject_Z 1) with 1. ring.
Qed.

Lemma edgeCoords_in_canvas (i : Info) (side b a : Z) :
  valid_side side ->
  (0 < width i)%Z -> (0 < height i)%Z ->
  (0 <= b < fst (if (side =? SIDE_TOP)%Z || (side =? SIDE_BOTTOM)%Z
                 then (width i, height i) else (height i, width i)))%Z ->
  (0 <= a < snd (if (side =? SIDE_TOP)%Z || (side =? SIDE_BOTTOM)%Z
                 then (width i, height i) else (height i, width i)))%Z ->
  (0 <= fst (edgeCoords i side b a) < width i)%Z /\
  (0 <= snd (edgeCoords i side b a) < height i)%Z.
Proof.
  intros [-> | [-> | [-> | ->]]] Hw Hh; simpl; unfold edgeCoords; simpl; lia.
Qed.

(** X10.  For one of the four sides, a position [b] along the side and a
    depth [a] within the canvas, [_getPixelFromEdge] reads a pixel of the
    canvas, whole: the pixel at [(b, a)] from the top, [(b, height - 1 - a)]
    from the bottom, [(a, b)] from the left and [(width - 1 - a, b)] from
    the right. *)
Theorem getPixelFromEdge_in_canvas `{Platform} (this : CropDetector)
    (im : ImageData) (side b a : Z) (tr : list event) (along depth : Z) :
  image this = Some im ->
  well_formed im ->
  getSideLength (width (info im)) (height (info im)) side = Ok (along, depth) ->
  (0 <= b < along)%Z ->
  (0 <= a < depth)%Z ->
  let xy := edgeCoords (info im) side b a in
  (0 <= fst xy < width (info im))%Z /\
  (0 <= snd xy < height (info im))%Z /\
  fst (_getPixelFromEdge this side (ofZ b) (ofZ a) tr)
    = Ok (Some (pixelBytes im (fst xy) (snd xy))) /\
  List.length (pixelBytes im (fst xy) (snd xy))
    = Z.to_nat (channels (info im)).
Proof.
  intros Him Hwf Hside Hb Ha xy.
  assert (Hvalid : valid_side side).
  { unfold getSideLength in Hside. unfold valid_side.
    destruct (side =? SIDE_TOP)%Z eqn:E1; [apply Z.eqb_eq in E1; auto |].
    destruct (side =? SIDE_BOTTOM)%Z eqn:E2; [apply Z.eqb_eq in E2; auto |].
    destruct (side =? SIDE_LEFT)%Z eqn:E3; [apply Z.eqb_eq in E3; auto |].
    destruct (side =? SIDE_RIGHT)%Z eqn:E4; [apply Z.eqb_eq in E4; auto |].
    discriminate. }
  pose proof Hwf as (Hw & Hh & _ & _).
  assert (Hin : (0 <= fst xy < width (info im))%Z /\
                (0 <= snd xy < height (info im))%Z).
  { apply edgeCoords_in_canvas; try assumption;
      unfold getSideLength in Hside;
      destruct Hvalid as [-> | [-> | [-> | ->]]]; simpl in *;
      injection Hside as <- <-; assumption. }
  destruct Hin as [Hx Hy].
  split; [exact Hx |]. split; [exact Hy |]. split.
  - unfold _getPixelFromEdge, bind at 1, defined. rewrite Him. cbn beta iota.
    assert (Hread : forall x y : num,
               x ≡ ofZ (fst xy) -> y ≡ ofZ (snd xy) ->
               fst ((rgb <- _getPixelAt this x y ;; ret (Some rgb)) tr)
               = Ok (Some (pixelBytes im (fst xy) (snd xy)))).
    { intros x y Ex Ey.
      destruct (@getPixelAt_at _ this im x y (fst xy) (snd xy) tr Him Hwf Ex Ey Hx Hy)
        as (ev & Hrun & _).
      unfold bind. rewrite Hrun. reflexivity. }
    unfold xy in *. unfold edgeCoords in *.
    destruct Hvalid as [-> | [-> | [-> | ->]]];
      cbn [Z.eqb SIDE_TOP SIDE_RIGHT SIDE_BOTTOM SIDE_LEFT Pos.eqb fst snd] in *;
      apply Hread; unfold ofZ, nsub; cbn [num_eq nadd nneg];
      try reflexivity;
      unfold Z.sub; rewrite !inject_Z_plus, !inject_Z_opp; reflexivity.
  - unfold pixelBytes. rewrite length_map, length_seq. reflexivity.
Qed.

Lemma getPixelBrightnessAt_run `{Platform} (this : CropDetector) (im : ImageData)
    (x y : Z) (tr : list event) :
  image this = Some im ->
  well_formed im ->
  (0 <= x < width (info im))%Z ->
  (0 <= y < height (info im))%Z ->
  exists ev : event,
    _getPixelBrightnessAt this (ofZ x) (ofZ y) tr
      = (Ok (calcBrightness (channel (pixelBytes im x y) 0)
                            (channel (pixelBytes im x y) 1)
                            (channel (pixelBytes im x y) 2)),
         ev :: tr) /\
    is_pixel_read ev.
Proof.
  intros Him Hwf Hx Hy.
  destruct (@getPixelAt_at _ this im (ofZ x) (ofZ y) x y tr Him Hwf)
    as (ev & Hrun & Hev); try assumption; try (simpl; reflexivity).
  exists ev. split; [| exact Hev].
  unfold _getPixelBrightnessAt, bind. rewrite Hrun. reflexivity.
Qed.

(** X11.  When the four pixels of the top left 2x2 block have one colour,
    [_getBgBrightness] returns the brightness of that colour, and it takes
    exactly four slices from the buffer. *)
Theorem getBgBrightness_uniform_corner `{Platform} (this : CropDetector)
    (im : ImageData) (r g b : byte) (tr : list event) :
  image this = Some im ->
  well_formed im ->
  (2 <= width (info im))%Z ->
  (2 <= height (info im))%Z ->
  (forall x y : Z, (0 <= x <= 1)%Z -> (0 <= y <= 1)%Z ->
     channel (pixelBytes im x y) 0 = byte_value r /\
     channel (pixelBytes im x y) 1 = byte_value g /\
     channel (pixelBytes im x y) 2 = byte_value b) ->
  exists (bg : num) (evs : list event),
    _getBgBrightness this tr = (Ok bg, evs ++ tr) /\
    bg ≡ calcBrightness (byte_value r) (byte_value g) (byte_value b) /\
    List.length evs = 4%nat /\
    Forall is_pixel_read evs.
Proof.
  intros Him Hwf Hw Hh Hcorner.
  unfold _getBgBrightness.
  destruct (@getPixelBrightnessAt_run _ this im 0 0 tr Him Hwf)
    as (e1 & R1 & P1); try lia.
  destruct (@getPixelBrightnessAt_run _ this im 1 0 (e1 :: tr) Him Hwf)
    as (e2 & R2 & P2); try lia.
  destruct (@getPixelBrightnessAt_run _ this im 0 1 (e2 :: e1 :: tr) Him Hwf)
    as (e3 & R3 & P3); try lia.
  destruct (@getPixelBrightnessAt_run _ this im 1 1 (e3 :: e2 :: e1 :: tr) Him Hwf)
    as (e4 & R4 & P4); try lia.
  unfold bind. rewrite R1, R2, R3, R4. unfold ret.
  destruct (Hcorner 0%Z 0%Z) as (-> & -> & ->); try lia.
  destruct (Hcorner 1%Z 0%Z) as (-> & -> & ->); try lia.
  destruct (Hcorner 0%Z 1%Z) as (-> & -> & ->); try lia.
  destruct (Hcorner 1%Z 1%Z) as (-> & -> & ->); try lia.
  eexists. exists [e4; e3; e2; e1]. split; [reflexivity |].
  split; [| split; [reflexivity | repeat constructor; assumption]].
  unfold byte_value, calcBrightness, ofZ. cbn [nmul nadd fold_left List.length].
  rewrite ndiv_Fin by discriminate. simpl num_eq. field.
Qed.

(** ** Rays and edges *)

Lemma getPixelFromEdge_reads `{Platform} (this : CropDetector) (im : ImageData)
    (side : Z) (b a : num) (tr : list event) :
  image this = Some im ->
  valid_side side ->
  exists (pixel : list byte) (ev : event),
    _getPixelFromEdge this side b a tr = (Ok (Some pixel), ev :: tr) /\
    is_pixel_read ev.
Proof.
  intros Him Hside.
  unfold _getPixelFromEdge, _getPixelAt, bind, defined, tell, ret.
  rewrite Him.
  destruct Hside as [-> | [-> | [-> | ->]]];
    cbn [Z.eqb SIDE_TOP SIDE_RIGHT SIDE_BOTTOM SIDE_LEFT Pos.eqb];
    do 2 eexists; (split; [reflexivity | exact I]).
Qed.

Lemma rayStepHits_length `{Platform} (this : CropDetector) (rayHits : list hit)
    (a : Z) (normalized : num) :
  (List.length (rayStepHits this rayHits a normalized)
   <= S (List.length rayHits))%nat.
Proof.
  unfold rayStepHits.
  destruct (normalized >? _)%num;
    match goal with
    | |- context [if ?c then [] else ?l] => destruct c
    end; simpl; rewrite ?length_app; simpl; lia.
Qed.

(** The loop of a ray on a loaded image: it returns, with two hits or with
    nothing, after one slice per depth it has looked at. *)
Lemma castEdgeRay_loop_runs `{Platform} (this : CropDetector) (im : ImageData)
    (side : Z) (b bg : num) :
  image this = Some im ->
  valid_side side ->
  forall (remaining : nat) (a : Z) (rayHits : list hit) (tr : list event),
    (List.length rayHits <= 1)%nat ->
    exists (r : option (list hit)) (evs : list event),
      _castEdgeRay_loop this remaining b side bg rayHits a tr = (Ok r, evs ++ tr) /\
      Forall is_pixel_read evs /\
      (List.length evs <= remaining)%nat /\
      match r with
      | None => List.length evs = remaining
      | Some found => List.length found = 2%nat
      end /\
      (remaining + List.length rayHits < 2 -> r = None)%nat.
Proof.
  intros Him Hside. induction remaining as [| remaining IH];
    intros a rayHits tr Hlen.
  - exists None, []. simpl. unfold ret. repeat split; auto.
  - cbn [_castEdgeRay_loop]. unfold bind at 1.
    destruct (@getPixelFromEdge_reads _ this im side b (ofZ a) tr Him Hside)
      as (pixel & ev & Hpix & Hev).
    rewrite Hpix. cbn beta iota. unfold bind, defined, ret. cbn beta iota.
    pose proof (rayStepHits_length this rayHits a (rayLevel this pixel bg)) as Hstep.
    set (rayHits' := rayStepHits this rayHits a (rayLevel this pixel bg)) in *.
    destruct (2 <=? List.length rayHits')%nat eqn:Etwo.
    + apply Nat.leb_le in Etwo.
      exists (Some rayHits'), [ev]. simpl.
      split; [reflexivity |]. split; [repeat constructor; exact Hev |].
      split; [lia |]. split; [lia |]. intro Hfew. lia.
    + apply Nat.leb_gt in Etwo.
      destruct (IH (a + 1)%Z rayHits' (ev :: tr)) as (r & evs & Hrun & Hreads & Hcount & Hres & Hnone);
        [lia |].
      exists r, (evs ++ [ev]). rewrite <- app_assoc. simpl.
      split; [exact Hrun |]. split.
      { apply Forall_app. split; [exact Hreads | repeat constructor; exact Hev]. }
      rewrite length_app. simpl. split; [lia |]. split.
      * destruct r; [exact Hres | lia].
      * intro Hfew. apply Hnone.
        assert (Hzero : List.length rayHits = 0%nat) by lia.
        destruct rayHits; [| discriminate]. lia.
Qed.

(** X12.  On a loaded image and one of the four sides [_castEdgeRay] never
    throws; it takes at most [maxDepth] slices from the buffer, exactly
    [maxDepth] of them when it returns [null]; and with [maxDepth <= 1] it
    always returns [null], since two samples are needed. *)
Theorem castEdgeRay_reads_at_most_maxDepth `{Platform} (this : CropDetector)
    (im : ImageData) (side : Z) (b bg : num) (maxDepth : Z) (tr : list event) :
  image this = Some im ->
  valid_side side ->
  exists (r : option num) (evs : list event),
    _castEdgeRay this b side maxDepth bg tr = (Ok r, evs ++ tr) /\
    Forall is_pixel_read evs /\
    (List.length evs <= Z.to_nat maxDepth)%nat /\
    (r = None -> List.length evs = Z.to_nat maxDepth) /\
    ((maxDepth <= 1)%Z -> r = None).
Proof.
  intros Him Hside. unfold _castEdgeRay, _castEdgeRay_hits, bind.
  destruct (@castEdgeRay_loop_runs _ this im side b bg Him Hside
              (Z.to_nat maxDepth) 0%Z [] tr)
    as (r & evs & Hrun & Hreads & Hcount & Hres & Hnone); [simpl; lia |].
  rewrite Hrun. destruct r as [found |].
  - destruct found as [| h0 [| h1 [| h2 found]]]; try discriminate Hres.
    cbn [normalizeRayHits lift ret].
    exists (Some (interpolate h0 h1)), evs.
    repeat split; try assumption; try discriminate.
    intro Hshallow. assert (Hn : Some [h0; h1] = None); [| discriminate Hn].
    apply Hnone. simpl. lia.
  - exists None, evs. unfold ret. repeat split; auto.
Qed.

(** X13.  A side that is none of the four constants: [_findEdge] throws
    the invalid-side error before it reads a pixel, and [_castEdgeRay]
    (for a positive [maxDepth]) throws a [TypeError] on the pixel that
    [_getPixelFromEdge] left undefined, again without a read. *)
Theorem invalid_side_throws `{Platform} (this : CropDetector) (im : ImageData)
    (side : Z) (b bg : num) (maxDepth : Z) (tr : list event) :
  image this = Some im ->
  ~ valid_side side ->
  _findEdge this side bg tr = (Throw (InvalidSide side), tr) /\
  ((0 < maxDepth)%Z ->
   _castEdgeRay this b side maxDepth bg tr = (Throw (TypeError "pixel"), tr)).
Proof.
  intros Him Hside.
  assert (E1 : (side =? SIDE_TOP)%Z = false)
    by (apply Z.eqb_neq; intro; apply Hside; unfold valid_side; auto).
  assert (E2 : (side =? SIDE_RIGHT)%Z = false)
    by (apply Z.eqb_neq; intro; apply Hside; unfold valid_side; auto).
  assert (E3 : (side =? SIDE_BOTTOM)%Z = false)
    by (apply Z.eqb_neq; intro; apply Hside; unfold valid_side; auto).
  assert (E4 : (side =? SIDE_LEFT)%Z = false)
    by (apply Z.eqb_neq; intro; apply Hside; unfold valid_side; auto).
  split.
  - unfold _findEdge, _findEdge_rays, bind, defined, lift, getSideLength.
    rewrite Him, E1, E2, E3, E4. reflexivity.
  - intro Hdepth. unfold _castEdgeRay, _castEdgeRay_hits.
    destruct (Z.to_nat maxDepth) as [| n] eqn:En; [lia |].
    cbn [_castEdgeRay_loop].
    unfold _getPixelFromEdge, bind, defined, ret, throw.
    rewrite Him, E1, E2, E3, E4. reflexivity.
Qed.

Lemma invalid_side_throws_witness :
  @_findEdge bare_platform narrow_target_detector 0 (ofZ 0) []
    = (Throw (InvalidSide 0), []) /\
  ((0 < 8)%Z ->
   @_castEdgeRay bare_platform narrow_target_detector (ofZ 10) 0 8 (ofZ 0) []
     = (Throw (TypeError "pixel"), [])).
Proof.
  apply (@invalid_side_throws bare_platform narrow_target_detector
           narrow_target_image 0 (ofZ 10) (ofZ 0) 8 []).
  - reflexivity.
  - intros [E | [E | [E | E]]]; discriminate E.
Defined.

(** [Math.min] over finite numbers: the least of them. *)
Lemma fold_Math_min_finite (qs : list Q) (a : Q) :
  exists m : Q,
    fold_left Math_min (map Fin qs) (Fin a) = Fin m /\
    (m = a \/ In m qs) /\
    m <= a /\
    forall q, In q qs -> m <= q.
Proof.
  revert a. induction qs as [| q qs IH]; intro a.
  - exists a. simpl. repeat split; auto; try lra. intros q [].
  - cbn [map fold_left]. unfold Math_min at 2. cbn [nlt].
    destruct (Qlt_bool q a) eqn:E.
    + apply Qlt_bool_iff in E.
      destruct (IH q) as (m & Hm & Hin & Hle & Hall).
      exists m. split; [exact Hm |]. split; [right; destruct Hin; [left; congruence | right; assumption] |].
      split; [lra |]. intros q' [<- | Hq']; [exact Hle | auto].
    + apply Qlt_bool_false in E.
      destruct (IH a) as (m & Hm & Hin & Hle & Hall).
      exists m. split; [exact Hm |]. split; [destruct Hin; [left; assumption | right; right; assumption] |].
      split; [lra |]. intros q' [<- | Hq']; [lra | auto].
Qed.

Lemma filter_not_null_numbers (rays : list (option num)) :
  Forall ray_is_number rays ->
  exists qs : list Q,
    filter_not_null rays = map Fin qs /\
    forall q, In q qs <-> In (Some (Fin q)) rays.
Proof.
  induction 1 as [| ray rays Hray _ (qs & Eqs & Hqs)].
  - exists []. split; [reflexivity |]. intro q. split; intros [].
  - destruct ray as [[q | | |] |]; try contradiction.
    + exists (q :: qs). unfold filter_not_null in *. cbn [flat_map app map].
      rewrite Eqs. split; [reflexivity |].
      intro q'. simpl. rewrite Hqs. split; intros [E | Hin]; auto.
      * left. congruence.
      * left. congruence.
    + exists qs. split; [exact Eqs |].
      intro q'. simpl. rewrite Hqs. split; [auto |]. intros [E | Hin]; [discriminate | exact Hin].
Qed.

(** X14.  When the rays of a side are cast without an exception, at least
    one of them finds the image and all positions found are finite, the
    edge [_findEdge] returns is the least of the positions found. *)
Theorem findEdge_is_least_hit `{Platform} (this : CropDetector) (side : Z)
    (bg : num) (tr tr' : list event) (rays : list (option num)) :
  _findEdge_rays this side bg tr = (Ok rays, tr') ->
  Forall ray_is_number rays ->
  filter_not_null rays <> [] ->
  exists m : Q,
    _findEdge this side bg tr = (Ok (Fin m), tr') /\
    In (Some (Fin m)) rays /\
    forall q : Q, In (Some (Fin q)) rays -> m <= q.
Proof.
  intros Hrays Hnum Hsome. rewrite findEdge_of_rays, Hrays.
  destruct (filter_not_null_numbers Hnum) as (qs & Eqs & Hqs).
  rewrite Eqs in *. destruct qs as [| q0 qs]; [contradiction |].
  unfold Math_min_spread. cbn [map fold_left].
  change (Math_min PInf (Fin q0)) with (Fin q0).
  destruct (fold_Math_min_finite qs q0) as (m & Hm & Hin & Hle & Hall).
  exists m. rewrite Hm. split; [reflexivity |]. split.
  - apply Hqs. destruct Hin as [-> | Hin]; [left; reflexivity | right; exact Hin].
  - intros q Hq. apply Hqs in Hq. destruct Hq as [<- | Hq]; [exact Hle | auto].
Qed.

Lemma findEdge_is_least_hit_witness :
  exists m : Q,
    fst (@_findEdge bare_platform narrow_target_detector SIDE_TOP (ofZ 0) [])
      = Ok (Fin m) /\
    m == 2.
Proof.
  edestruct (@findEdge_is_least_hit bare_platform narrow_target_detector
               SIDE_TOP (ofZ 0) []) as (m & Hrun & _ & _).
  - vm_compute. reflexivity.
  - repeat constructor.
  - discriminate.
  - exists m. rewrite Hrun. split; [reflexivity |].
    vm_compute in Hrun. injection Hrun as <-. reflexivity.
Defined.

(** ** A detection on a loaded image returns *)

(** The scan length of a positive side, for any target ratio: at most the
    side, or [-Infinity]. *)
Lemma correctScanRatio_at_most (L c : Q) (i : num) (apply : bool) :
  0 < L -> 0 < c ->
  apply = (i <? Fin c)%num \/ apply = (i >? Fin c)%num ->
  correctScanRatio (Fin L) i (Fin c) apply = NInf \/
  exists s : Q, correctScanRatio (Fin L) i (Fin c) apply = Fin s /\ s <= L.
Proof.
  intros HL Hc Happly. unfold correctScanRatio.
  destruct apply; [| right; exists L; split; [reflexivity | lra]].
  cbn [negb orb].
  destruct (i === Fin c)%num eqn:Eeq; [right; exists L; split; [reflexivity | lra] |].
  assert (Hc0 : ~ c == 0) by lra.
  assert (HsL : (Qnum L ?= 0)%Z = Gt).
  { apply Z.compare_gt_iff. unfold Qlt in HL. simpl in HL. lia. }
  assert (Hsc : (Qnum c ?= 0)%Z = Gt).
  { apply Z.compare_gt_iff. unfold Qlt in Hc. simpl in Hc. lia. }
  destruct Happly as [Hlt | Hgt].
  - symmetry in Hlt. unfold ngt. rewrite (nlt_asym _ _ Hlt).
    destruct i as [r | | |]; simpl in Hlt; try discriminate.
    + right. rewrite ndiv_Fin by exact Hc0. cbn [nmul].
      eexists. split; [reflexivity |].
      apply Qlt_bool_iff in Hlt.
      assert (Hq : r / c <= 1) by (apply Qle_shift_div_r; lra).
      nra.
    + left. unfold ndiv. apply Qeq_bool_false in Hc0. rewrite Hc0.
      cbn [sign mul_sign inf_of_sign]. rewrite Hsc. cbn [mul_sign inf_of_sign nmul sign].
      rewrite HsL. reflexivity.
  - symmetry in Hgt. rewrite Hgt. unfold ngt in Hgt.
    destruct i as [r | | |]; simpl in Hgt; try discriminate.
    + right. apply Qlt_bool_iff in Hgt.
      rewrite ndiv_Fin by lra. cbn [nmul].
      eexists. split; [reflexivity |].
      assert (Hq : c / r <= 1) by (apply Qle_shift_div_r; lra).
      nra.
    + right. cbn [ndiv nmul]. eexists. split; [reflexivity | lra].
Qed.

Lemma Qis_integer_inject_Z (z : Z) : Qis_integer (inject_Z z) = true.
Proof.
  unfold Qis_integer, Qred, inject_Z. cbn [Qnum Qden].
  pose proof (Z.ggcd_gcd z 1) as Hg.
  pose proof (Z.ggcd_correct_divisors z 1) as Hd.
  destruct (Z.ggcd z 1) as (g & aa & bb). cbn [fst snd] in *.
  rewrite Z.gcd_1_r in Hg. subst g. destruct Hd as [_ Hbb].
  cbn [Qden]. replace bb with 1%Z by lia. reflexivity.
Qed.

(** With the default [rayAmount] and [rayAmountMin], the number of rays of
    such a scan length is a valid array length. *)
Lemma new_Array_rayNumber `{Platform} (scan : num) (L : Z) (tr : list event) :
  (L < 2 ^ 32)%Z ->
  scan = NInf \/ (exists s : Q, scan = Fin s /\ s <= inject_Z L) ->
  exists len : nat,
    new_Array (Math_max (Math_floor (scan * Fin (25 # 1000))%num) (Fin 15)) tr
      = (Ok len, tr).
Proof.
  intros HL [-> | (s & -> & Hs)].
  - eexists. reflexivity.
  - cbn [nmul Math_floor]. unfold Math_max, ofZ. cbn [nlt].
    set (z := Qfloor (s * (25 # 1000))).
    destruct (Qlt_bool (inject_Z z) 15) eqn:E; [eexists; reflexivity |].
    apply Qlt_bool_false in E.
    unfold new_Array. rewrite Qis_integer_inject_Z.
    assert (E1 : Qle_bool 0 (inject_Z z) = true) by (apply Qle_bool_iff; lra).
    assert (E2 : Qlt_bool (inject_Z z) (inject_Z (2 ^ 32)) = true).
    { apply Qlt_bool_iff.
      assert (Hz : inject_Z z <= s * (25 # 1000)) by apply Qfloor_le.
      assert (HL' : inject_Z L < inject_Z (2 ^ 32)) by (rewrite <- Zlt_Qlt; exact HL).
      assert (H0 : 0 <= s) by lra. lra. }
    rewrite E1, E2. eexists. reflexivity.
Qed.

Lemma mapM_ok `{Platform} {A B : Type} (f : A -> M B) (xs : list A) :
  (forall x tr, exists y tr', f x tr = (Ok y, tr')) ->
  forall tr, exists ys tr', mapM f xs tr = (Ok ys, tr').
Proof.
  intro Hf. induction xs as [| x xs IH]; intro tr.
  - exists [], tr. reflexivity.
  - destruct (Hf x tr) as (y & tr1 & E1).
    destruct (IH tr1) as (ys & tr2 & E2).
    exists (y :: ys), tr2. cbn [mapM]. unfold bind. rewrite E1, E2. reflexivity.
Qed.

Lemma castEdgeRay_ok `{Platform} (this : CropDetector) (im : ImageData)
    (side : Z) (b bg : num) (maxDepth : Z) (tr : list event) :
  image this = Some im ->
  valid_side side ->
  exists r tr', _castEdgeRay this b side maxDepth bg tr = (Ok r, tr').
Proof.
  intros Him Hside. unfold _castEdgeRay, _castEdgeRay_hits, bind.
  destruct (@castEdgeRay_loop_runs _ this im side b bg Him Hside
              (Z.to_nat maxDepth) 0%Z [] tr)
    as (r & evs & Hrun & _ & _ & Hres & _); [simpl; lia |].
  rewrite Hrun. destruct r as [found |].
  - destruct found as [| h0 [| h1 [| h2 found]]]; try discriminate Hres.
    do 2 eexists. reflexivity.
  - do 2 eexists. reflexivity.
Qed.

Lemma findEdge_ok `{Platform} (this : CropDetector) (im : ImageData)
    (side : Z) (bg : num) (tr : list event) :
  image this = Some im ->
  settings this = default_settings ->
  (0 < width (info im) < 2 ^ 32)%Z ->
  (0 < height (info im) < 2 ^ 32)%Z ->
  valid_side side ->
  exists e tr', _findEdge this side bg tr = (Ok e, tr').
Proof.
  intros Him Hset Hw Hh Hside.
  rewrite findEdge_of_rays.
  assert (Hrays : exists rays tr', _findEdge_rays this side bg tr = (Ok rays, tr')).
  { unfold _findEdge_rays, bind at 1, defined. rewrite Him.
    unfold ret at 1. cbn beta iota zeta.
    rewrite Hset. cbn [rayAmount rayAmountMin rayMargin rayMaxDepth default_settings].
    assert (HW : 0 < inject_Z (width (info im))).
    { replace 0 with (inject_Z 0) by reflexivity. rewrite <- Zlt_Qlt. lia. }
    assert (HH : 0 < inject_Z (height (info im))).
    { replace 0 with (inject_Z 0) by reflexivity. rewrite <- Zlt_Qlt. lia. }
    assert (Hc : exists c : Q,
               (ofZ (width (info im)) / ofZ (height (info im)))%num = Fin c /\ 0 < c).
    { unfold ofZ. rewrite ndiv_Fin by lra. eexists. split; [reflexivity |].
      apply Qlt_shift_div_l; lra. }
    destruct Hc as (c & -> & Hcpos).
    set (i := if (imageRatio this !== ofZ 0)%num then imageRatio this else Fin c).
    assert (Hscan : exists (along depth : Z) (scan : num),
               getSideLength (width (info im)) (height (info im)) side
                 = Ok (along, depth) /\
               getSideScanLength (ofZ (width (info im))) (ofZ (height (info im)))
                 i (Fin c) side = Ok scan /\
               (along < 2 ^ 32)%Z /\
               (scan = NInf \/ exists s : Q, scan = Fin s /\ s <= inject_Z along)).
    { unfold getSideLength, getSideScanLength.
      destruct Hside as [-> | [-> | [-> | ->]]];
        cbn [Z.eqb SIDE_TOP SIDE_RIGHT SIDE_BOTTOM SIDE_LEFT Pos.eqb orb];
        do 3 eexists; (split; [reflexivity |]); (split; [reflexivity |]);
        (split; [lia |]); unfold ofZ;
        apply correctScanRatio_at_most; auto. }
    destruct Hscan as (along & depth & scan & -> & -> & Halong & Hscan).
    unfold bind at 1, lift. cbn beta iota.
    unfold bind at 1. cbn beta iota. cbn [fst snd].
    destruct (@new_Array_rayNumber _ scan along tr Halong Hscan) as (len & Hlen).
    unfold bind at 1. rewrite Hlen.
    apply mapM_ok. intros n tr0.
    apply (@castEdgeRay_ok _ this im); [exact Him |].
    unfold valid_side. tauto. }
  destruct Hrays as (rays & tr' & ->). do 2 eexists. reflexivity.
Qed.

Lemma getBgBrightness_ok `{Platform} (this : CropDetector) (im : ImageData)
    (tr : list event) :
  image this = Some im ->
  exists bg tr', _getBgBrightness this tr = (Ok bg, tr').
Proof.
  intro Him.
  unfold _getBgBrightness, _getPixelBrightnessAt, _getPixelAt,
    bind, defined, tell, ret.
  rewrite Him. do 2 eexists. reflexivity.
Qed.

(** X15.  Once an image of positive dimensions (below [2^32]) is loaded, a
    detector with the default settings returns a crop box from
    [detectCropBox] whatever the pixels and whatever the target ratio: no
    path throws.  The box carries the dimensions of the image and the
    target ratio of the detector. *)
Theorem detectCropBox_returns_once_loaded `{Platform} (this : CropDetector)
    (im : ImageData) (tr : list event) :
  isLoaded this = true ->
  image this = Some im ->
  settings this = default_settings ->
  (0 < width (info im) < 2 ^ 32)%Z ->
  (0 < height (info im) < 2 ^ 32)%Z ->
  exists (box : CropBox) (tr' : list event),
    detectCropBox this tr = (Ok box, tr') /\
    source_width box = ofZ (width (info im)) /\
    source_height box = ofZ (height (info im)) /\
    target_aspectRatio box = imageRatio this.
Proof.
  intros Hl Him Hset Hw Hh.
  unfold detectCropBox. rewrite Hl. cbn [negb].
  unfold bind at 1, defined. rewrite Him. unfold ret at 1. cbn beta iota.
  destruct (@getBgBrightness_ok _ this im tr Him) as (bg & tr0 & Hbg).
  unfold bind at 1. rewrite Hbg.
  unfold _findEdges.
  destruct (@findEdge_ok _ this im SIDE_TOP bg tr0 Him Hset Hw Hh)
    as (t & tr1 & Ht); [unfold valid_side; auto |].
  destruct (@findEdge_ok _ this im SIDE_RIGHT bg tr1 Him Hset Hw Hh)
    as (r & tr2 & Hr); [unfold valid_side; auto |].
  destruct (@findEdge_ok _ this im SIDE_BOTTOM bg tr2 Him Hset Hw Hh)
    as (b & tr3 & Hb); [unfold valid_side; auto |].
  destruct (@findEdge_ok _ this im SIDE_LEFT bg tr3 Him Hset Hw Hh)
    as (l & tr4 & Hleft); [unfold valid_side; auto |].
  unfold bind. rewrite Ht, Hr, Hb, Hleft. unfold ret.
  do 2 eexists. split; [reflexivity |]. repeat split.
Qed.

Lemma detectCropBox_returns_once_loaded_witness :
  exists (box : CropBox) (tr' : list event),
    @detectCropBox bare_platform bare_all_black [] = (Ok box, tr') /\
    source_width box = ofZ 20 /\
    source_height box = ofZ 20 /\
    target_aspectRatio box = ofZ 0.
Proof.
  apply (@detectCropBox_returns_once_loaded bare_platform bare_all_black
           (@Build_ImageData bare_platform
              (framed_canvas 20 20 0 x00 x00) (rgb_info 20 20) tt) []);
    try reflexivity; split; reflexivity.
Defined.

(** X16.  A detector built without an aspect ratio has the target ratio 0:
    on every run whose cropped ratio is a positive number, the corrected
    width is the source width and the corrected height is 0. *)
Theorem detectCropBox_without_target_ratio `{Platform} (this : CropDetector)
    (tr tr' : list event) (box : CropBox) (c : Q) :
  imageRatio this = ofZ 0 ->
  detectCropBox this tr = (Ok box, tr') ->
  cropped_aspectRatio box = Fin c ->
  0 < c ->
  cropped_correctedWidth box = source_width box /\
  exists h : Q, cropped_correctedHeight box = Fin h /\ h == 0.
Proof.
  intros Hratio Hrun Hc Hpos.
  destruct (detectCropBox_ok_inv _ _ Hrun) as (im & edges & bg & Him & ->).
  set (box := cropBox this (info im) edges bg) in *.
  assert (EW : cropped_correctedWidth box =
               if (imageRatio this >? cropped_aspectRatio box)%num
               then (source_width box
                     * (imageRatio this / cropped_aspectRatio box))%num
               else source_width box) by reflexivity.
  assert (EH : cropped_correctedHeight box =
               if (imageRatio this >? cropped_aspectRatio box)%num
               then source_height box
               else (source_height box
                     * (imageRatio this / cropped_aspectRatio box))%num)
    by reflexivity.
  assert (SH : source_height box = Fin (inject_Z (height (info im)))) by reflexivity.
  rewrite Hc, Hratio in EW, EH. rewrite EW, EH, SH.
  assert (Hgt : (ofZ 0 >? Fin c)%num = false).
  { unfold ngt, ofZ. simpl. apply Qlt_bool_false. unfold inject_Z. lra. }
  rewrite Hgt. split; [reflexivity |].
  unfold ofZ. rewrite ndiv_Fin by lra. cbn [nmul].
  eexists. split; [reflexivity |]. unfold inject_Z. field. lra.
Qed.

Lemma detectCropBox_without_target_ratio_witness :
  exists box : CropBox,
    fst (@detectCropBox bare_platform
           (@detector_with bare_platform None
              (framed_canvas 20 20 2 x00 xff) (rgb_info 20 20) tt) [])
      = Ok box /\
    cropped_correctedWidth box = source_width box /\
    exists h : Q, cropped_correctedHeight box = Fin h /\ h == 0.
Proof.
  eexists. split; [vm_compute; reflexivity |].
  refine (@detectCropBox_without_target_ratio bare_platform
            (@detector_with bare_platform None
               (framed_canvas 20 20 2 x00 xff) (rgb_info 20 20) tt)
            [] _ _ _ _ _ _ _).
  - reflexivity.
  - vm_compute. reflexivity.
  - vm_compute. reflexivity.
  - reflexivity.
Defined.

(** X17.  For one of the four sides of a canvas and a positive target
    ratio, the scan length is a number that is not negative and at most the
    length of that side as [getSideLength] gives it. *)
Theorem scanLength_within_side `{Platform} (w h side : Z) (r : Q) :
  (0 < w < 2 ^ 32)%Z -> (0 < h < 2 ^ 32)%Z -> 0 < r ->
  valid_side side ->
  exists (along depth : Z) (s : Q),
    getSideLength w h side = Ok (along, depth) /\
    getSideScanLength (ofZ w) (ofZ h) (Fin r) (ofZ w / ofZ h)%num side
      = Ok (Fin s) /\
    0 <= s <= inject_Z along.
Proof.
  intros [Hw _] [Hh _] Hr Hside.
  assert (HW : 0 < inject_Z w).
  { replace 0 with (inject_Z 0) by reflexivity. rewrite <- Zlt_Qlt. lia. }
  assert (HH : 0 < inject_Z h).
  { replace 0 with (inject_Z 0) by reflexivity. rewrite <- Zlt_Qlt. lia. }
  unfold ofZ. rewrite ndiv_Fin by lra.
  set (c := inject_Z w / inject_Z h).
  assert (Hc : 0 < c) by (apply Qlt_shift_div_l; lra).
  assert (Hscan : forall (L : Q) (apply : bool), 0 < L ->
             exists s, correctScanRatio (Fin L) (Fin r) (Fin c) apply = Fin s /\
                       0 <= s <= L).
  { intros L apply HL. unfold correctScanRatio.
    destruct (negb apply || (Fin r === Fin c)%num);
      [exists L; split; [reflexivity | lra] |].
    unfold ngt. cbn [nlt].
    destruct (Qlt_bool c r) eqn:E.
    - apply Qlt_bool_iff in E. rewrite ndiv_Fin by lra. cbn [nmul].
      eexists. split; [reflexivity |].
      assert (Hq : 0 < c / r) by (apply Qlt_shift_div_l; lra).
      assert (Hq' : c / r <= 1) by (apply Qle_shift_div_r; lra).
      split; nra.
    - apply Qlt_bool_false in E. rewrite ndiv_Fin by lra. cbn [nmul].
      eexists. split; [reflexivity |].
      assert (Hq : 0 < r / c) by (apply Qlt_shift_div_l; lra).
      assert (Hq' : r / c <= 1) by (apply Qle_shift_div_r; lra).
      split; nra. }
  unfold getSideLength, getSideScanLength.
  destruct Hside as [-> | [-> | [-> | ->]]];
    cbn [Z.eqb SIDE_TOP SIDE_RIGHT SIDE_BOTTOM SIDE_LEFT Pos.eqb orb];
    match goal with
    | |- context [correctScanRatio (Fin ?L) _ _ ?apply] =>
        destruct (Hscan L apply) as (s & -> & Hs); [assumption |]
    end;
    do 3 eexists; (split; [reflexivity |]); (split; [reflexivity | exact Hs]).
Qed.

Lemma scanLength_within_side_witness :
  exists (along depth : Z) (s : Q),
    @getSideLength bare_platform Z 640%Z 400%Z SIDE_TOP = Ok (along, depth) /\
    @getSideScanLength bare_platform (ofZ 640) (ofZ 400) (Fin (4 # 3))
      (ofZ 640 / ofZ 400)%num SIDE_TOP = Ok (Fin s) /\
    0 <= s <= inject_Z along.
Proof.
  apply (@scanLength_within_side bare_platform 640 400 SIDE_TOP (4 # 3));
    try reflexivity; try (split; reflexivity).
  left. reflexivity.
Defined.

(** ** Loading *)

Lemma strip_prefix_complete (p r : string) :
  strip_prefix p (p ++ r) = Some r.
Proof.
  induction p as [| a p IH]; simpl; [reflexivity |].
  rewrite Ascii.eqb_refl. exact IH.
Qed.

Lemma string_append_assoc (a b c : string) :
  ((a ++ b) ++ c)%string = (a ++ b ++ c)%string.
Proof.
  induction a as [| x a IH]; simpl; [reflexivity |]. f_equal. exact IH.
Qed.

Lemma string_slice_app (p d : string) :
  string_slice (String.length p) (p ++ d) = d.
Proof.
  induction p as [| a p IH]; simpl; [destruct d; reflexivity | exact IH].
Qed.

(** The lazy group stops at the first [;base64,] it can: whatever way the
    text splits around a [;base64,], the group matched is no longer. *)
Lemma match_lazy_group_complete (extra tail group : string) :
  Forall (fun c => is_line_terminator c = false) (list_ascii_of_string extra) ->
  exists extra0 tail0 : string,
    match_lazy_group group (extra ++ ";base64," ++ tail) = Some (group ++ extra0)%string /\
    (String.length extra0 <= String.length extra)%nat /\
    (extra ++ ";base64," ++ tail)%string = (extra0 ++ ";base64," ++ tail0)%string /\
    Forall (fun c => is_line_terminator c = false) (list_ascii_of_string extra0).
Proof.
  revert group. induction extra as [| c extra IH]; intros group Hplain.
  - exists EmptyString, tail. split.
    + change (EmptyString ++ ";base64," ++ tail)%string
        with (";base64," ++ tail)%string.
      destruct tail; simpl; f_equal; clear; induction group; simpl; congruence.
    + repeat split; auto.
  - inversion Hplain as [| c' l Hc Hrest]; subst.
    change (String c extra ++ ";base64," ++ tail)%string
      with (String c (extra ++ ";base64," ++ tail)).
    cbn [match_lazy_group].
    destruct (strip_prefix ";base64," (String c (extra ++ ";base64," ++ tail)))
      as [tail0 |] eqn:Es.
    + exists EmptyString, tail0. split.
      * f_equal. clear. induction group; simpl; congruence.
      * split; [simpl; lia |]. split; [| constructor].
        apply strip_prefix_sound in Es. exact Es.
    + rewrite Hc.
      destruct (IH (group ++ String c EmptyString)%string Hrest)
        as (extra0 & tail0 & Hm & Hlen & Hsplit & Hplain0).
      exists (String c extra0), tail0. split.
      * rewrite Hm. f_equal. apply append_cons_assoc.
      * split; [simpl; lia |]. split.
        -- simpl. f_equal. exact Hsplit.
        -- simpl. constructor; assumption.
Qed.

(** X18.  On a string that begins with a literal [data:<mime>;base64,]
    (the mime not empty, on one line) [loadImageBase64] splits the string
    at the first [;base64,] that follows a non-empty group, hands the text
    after it to [Buffer.from] and the bytes to [loadImageBuffer]; the group
    is no longer than the mime of any such reading of the string. *)
Theorem loadImageBase64_decodes_payload `{Platform} (this : CropDetector)
    (base64 mime rest : string) (tr : list event) :
  mime_text mime ->
  base64 = ("data:" ++ mime ++ ";base64," ++ rest)%string ->
  exists group payload : string,
    mime_text group /\
    (String.length group <= String.length mime)%nat /\
    base64 = ("data:" ++ group ++ ";base64," ++ payload)%string /\
    match_data_uri base64 = Some (("data:" ++ group ++ ";base64,")%string, group) /\
    loadImageBase64 this base64 tr
      = loadImageBuffer this (Buffer_from_base64 payload)
          (Base64Decode payload :: tr).
Proof.
  intros [Hne Hplain] ->.
  destruct mime as [| c mime]; [contradiction |].
  inversion Hplain as [| c' l Hc Hrest]; subst.
  destruct (@match_lazy_group_complete mime rest (String c EmptyString) Hrest)
    as (extra0 & tail0 & Hm & Hlen & Hsplit & Hplain0).
  assert (Hmatch : match_data_uri ("data:" ++ String c mime ++ ";base64," ++ rest)
                   = Some (("data:" ++ String c extra0 ++ ";base64,")%string,
                           String c extra0)).
  { unfold match_data_uri. rewrite strip_prefix_complete.
    change (String c mime ++ ";base64," ++ rest)%string
      with (String c (mime ++ ";base64," ++ rest)).
    cbv beta iota. rewrite Hc, Hm. reflexivity. }
  exists (String c extra0), tail0.
  split; [split; [discriminate | simpl; constructor; assumption] |].
  split; [simpl; lia |].
  assert (Hshape : ("data:" ++ String c mime ++ ";base64," ++ rest)%string
                   = (("data:" ++ String c extra0 ++ ";base64,") ++ tail0)%string).
  { change (String c mime ++ ";base64," ++ rest)%string
      with (String c (mime ++ ";base64," ++ rest)).
    rewrite Hsplit. simpl. do 6 f_equal.
    rewrite string_append_assoc. reflexivity. }
  split.
  { rewrite Hshape. simpl. do 6 f_equal. apply string_append_assoc. }
  split; [exact Hmatch |].
  unfold loadImageBase64. rewrite Hmatch. cbn [fst].
  rewrite Hshape, string_slice_app. reflexivity.
Qed.

Lemma loadImageBase64_decodes_payload_witness :
  exists group payload : string,
    mime_text group /\
    (String.length group <= String.length "image/png;base64,x")%nat /\
    "data:image/png;base64,x;base64,AAAA"%string
      = ("data:" ++ group ++ ";base64," ++ payload)%string /\
    match_data_uri "data:image/png;base64,x;base64,AAAA"
      = Some (("data:" ++ group ++ ";base64,")%string, group) /\
    @loadImageBase64 bare_platform (constructor None)
        "data:image/png;base64,x;base64,AAAA" []
      = @loadImageBuffer bare_platform (constructor None)
          (@Buffer_from_base64 bare_platform payload) [Base64Decode payload].
Proof.
  apply (@loadImageBase64_decodes_payload bare_platform (constructor None)
           "data:image/png;base64,x;base64,AAAA" "image/png;base64,x" "AAAA" []).
  - split; [discriminate |]. simpl. repeat constructor.
  - reflexivity.
Defined.

(** X19.  A load that succeeds has had both calls into [sharp] succeed on
    its input; the detector it leaves is loaded, holds what the raw decode
    returned with the metadata, names the file (or [<buffer>]), and keeps
    the target ratio and the settings it had. *)
Theorem load_stores_decoded `{Platform} (this this' : CropDetector)
    (c : load_call) (tr tr' : list event) :
  load this c tr = (Ok this', tr') ->
  exists (input : sharp_input) (d : Buffer) (i : Info) (m : Metadata),
    sharp_metadata input = inr m /\
    sharp_raw input = inr (d, i) /\
    image this' = Some {| data := d; info := i; metadata := m |} /\
    isLoaded this' = true /\
    filepath this' = Some (match c with
                           | LoadFile path => path
                           | _ => "<buffer>"%string
                           end) /\
    imageRatio this' = imageRatio this /\
    settings this' = settings this /\
    match c with
    | LoadFile path => input = FromFile path
    | LoadBuffer buffer => input = FromBuffer buffer
    | LoadBase64 _ => exists payload, input = FromBuffer (Buffer_from_base64 payload)
    end.
Proof.
  assert (Hcore : forall input k tr0,
            (m <- sharp_metadata_call input ;;
             '(d, i) <- sharp_raw_call input ;;
             ret (loaded this k d i m)) tr0 = (Ok this', tr') ->
            exists d i m,
              sharp_metadata input = inr m /\
              sharp_raw input = inr (d, i) /\
              this' = loaded this k d i m).
  { intros input k tr0.
    unfold sharp_metadata_call, sharp_raw_call, bind, tell, ret, throw.
    destruct (sharp_metadata input) as [e | m]; [discriminate |].
    destruct (sharp_raw input) as [e | [d i]]; [discriminate |].
    intro E. injection E as <- _. exists d, i, m. repeat split. }
  intro Hrun. destruct c as [buffer | path | base64]; simpl in Hrun.
  - destruct (Hcore _ _ _ Hrun) as (d & i & m & Hm & Hr & ->).
    exists (FromBuffer buffer), d, i, m. repeat split; assumption.
  - destruct (Hcore _ _ _ Hrun) as (d & i & m & Hm & Hr & ->).
    exists (FromFile path), d, i, m. repeat split; assumption.
  - unfold loadImageBase64 in Hrun.
    destruct (match_data_uri base64) as [mime |]; [| discriminate].
    unfold bind at 1, tell in Hrun.
    destruct (Hcore _ _ _ Hrun) as (d & i & m & Hm & Hr & ->).
    exists (FromBuffer (Buffer_from_base64
                          (string_slice (String.length (fst mime)) base64))),
      d, i, m.
    repeat split; try assumption.
    eexists. reflexivity.
Qed.

(** X20.  A load that throws throws either the not-a-base64-string error
    of [loadImageBase64], with the trace untouched, or a rejection of
    [sharp]; and when it is the metadata call that [sharp] rejects, the raw
    decode is not called. *)
Theorem load_failure_kinds `{Platform} (this : CropDetector) (c : load_call)
    (e : error) (tr tr' : list event) :
  load this c tr = (Throw e, tr') ->
  (e = Error "Not a base64 image string." /\ tr' = tr /\
   exists base64, c = LoadBase64 base64) \/
  (exists (se : SharpError) (input : sharp_input),
     e = Rejected se /\
     ((sharp_metadata input = inl se /\
       exists tr0, tr' = SharpMetadata input :: tr0 /\
                   (tr0 = tr \/ exists payload, tr0 = Base64Decode payload :: tr)) \/
      (sharp_raw input = inl se /\
       exists tr0, tr' = SharpRaw input :: SharpMetadata input :: tr0))).
Proof.
  assert (Hcore : forall input k tr0,
            (m <- sharp_metadata_call input ;;
             '(d, i) <- sharp_raw_call input ;;
             ret (loaded this k d i m)) tr0 = (Throw e, tr') ->
            exists se,
              e = Rejected se /\
              ((sharp_metadata input = inl se /\ tr' = SharpMetadata input :: tr0) \/
               (sharp_raw input = inl se /\
                tr' = SharpRaw input :: SharpMetadata input :: tr0))).
  { intros input k tr0.
    unfold sharp_metadata_call, sharp_raw_call, bind, tell, ret, throw.
    destruct (sharp_metadata input) as [se | m].
    - intro E. injection E as <- <-. exists se. auto.
    - destruct (sharp_raw input) as [se | [d i]]; [| discriminate].
      intro E. injection E as <- <-. exists se. auto. }
  intro Hrun. destruct c as [buffer | path | base64]; simpl in Hrun.
  - right. destruct (Hcore _ _ _ Hrun) as (se & -> & [[Hm ->] | [Hr ->]]);
      exists se, (FromBuffer buffer); split; try reflexivity; eauto 8.
  - right. destruct (Hcore _ _ _ Hrun) as (se & -> & [[Hm ->] | [Hr ->]]);
      exists se, (FromFile path); split; try reflexivity; eauto 8.
  - unfold loadImageBase64 in Hrun.
    destruct (match_data_uri base64) as [mime |].
    + right. unfold bind at 1, tell in Hrun.
      destruct (Hcore _ _ _ Hrun) as (se & -> & [[Hm ->] | [Hr ->]]);
        exists se, (FromBuffer (Buffer_from_base64
                                  (string_slice (String.length (fst mime)) base64)));
        (split; [reflexivity |]); eauto 8.
    + left. unfold throw in Hrun. injection Hrun as <- <-. eauto.
Qed.

Lemma load_stores_decoded_witness :
  exists (this' : @CropDetector canvas_platform) (input : sharp_input)
         (d : Buffer) (i : Info),
    @image canvas_platform this'
      = Some (@Build_ImageData canvas_platform d i tt) /\
    @isLoaded canvas_platform this' = true /\
    @filepath canvas_platform this' = Some "scan.png"%string /\
    @imageRatio canvas_platform this' = Fin (4 # 3) /\
    input = FromFile "scan.png".
Proof.
  destruct (@load_stores_decoded canvas_platform
              (@constructor canvas_platform (Some (Fin (4 # 3))))
              (@loaded canvas_platform
                 (@constructor canvas_platform (Some (Fin (4 # 3))))
                 "scan.png" (framed_canvas 20 20 2 x00 xff) (rgb_info 20 20) tt)
              (LoadFile "scan.png") []
              [SharpRaw (FromFile "scan.png"); SharpMetadata (FromFile "scan.png")])
    as (input & d & i & m & _ & _ & Him & Hl & Hf & Hr & _ & Hin).
  - reflexivity.
  - destruct m. eexists. exists input, d, i. repeat split; eassumption.
Defined.

Lemma load_failure_kinds_witness :
  (@Rejected bare_platform "Input buffer contains unsupported image format"%string
     = Error "Not a base64 image string." /\
   [SharpMetadata (FromFile "scan.png")] = [] /\
   exists base64, LoadFile "scan.png" = LoadBase64 base64) \/
  (exists (se : @SharpError bare_platform) (input : sharp_input),
     @Rejected bare_platform "Input buffer contains unsupported image format"%string
       = Rejected se /\
     ((@sharp_metadata bare_platform input = inl se /\
       exists tr0, [SharpMetadata (FromFile "scan.png")] = SharpMetadata input :: tr0 /\
                   (tr0 = [] \/ exists payload, tr0 = [Base64Decode payload])) \/
      (@sharp_raw bare_platform input = inl se /\
       exists tr0, [SharpMetadata (FromFile "scan.png")]
                   = SharpRaw input :: SharpMetadata input :: tr0))).
Proof.
  apply (@load_failure_kinds bare_platform (constructor None)
           (LoadFile "scan.png")).
  reflexivity.
Defined.

(** ** The arithmetic helpers in binary64 *)

(** A check that holds of every integer below [n] holds of each of them. *)
Lemma forallb_below (P : Z -> bool) (n : nat) :
  forallb P (map Z.of_nat (List.seq 0 n)) = true ->
  forall z : Z, (0 <= z < Z.of_nat n)%Z -> P z = true.
Proof.
  intros Hall z Hz. rewrite forallb_forall in Hall. apply Hall.
  apply in_map_iff. exists (Z.to_nat z). split; [lia |].
  apply in_seq. lia.
Qed.

(** X24.  In binary64 the brightness of a grey of the raw level [g] is
    never above [g], and at most one float below it: the three weights,
    rounded, and the three products no longer add up to [g] exactly.  The
    grey 1 has the brightness [0.9999999999999999]; the greys 0, 94 and 255
    have the brightness of their level. *)
Theorem calcBrightness_binary64_greys (g : Z) :
  raw_level g ->
  let x := Binary64.ofZ g in
  let y := Binary64.calcBrightness x x x in
  (y <=? x)%float = true /\
  (next_down x <=? y)%float = true /\
  Binary64.calcBrightness 1 1 1 = 0x1.fffffffffffffp-1%float /\
  (Binary64.calcBrightness 1 1 1 <? 1)%float = true /\
  Binary64.calcBrightness 0 0 0 = 0%float /\
  Binary64.calcBrightness 94 94 94 = 94%float /\
  Binary64.calcBrightness 255 255 255 = 255%float.
Proof.
  intros [Hlo Hhi]. cbv zeta.
  set (P := fun g : Z =>
              let x := Binary64.ofZ g in
              let y := Binary64.calcBrightness x x x in
              ((y <=? x) && (next_down x <=? y))%float).
  assert (Hall : forallb P (map Z.of_nat (List.seq 0 256)) = true)
    by (vm_compute; reflexivity).
  assert (Hg : P g = true) by (apply (forallb_below P 256 Hall); lia).
  unfold P in Hg. cbv zeta in Hg. apply andb_true_iff in Hg.
  destruct Hg as [Hle Hge].
  split; [exact Hle |]. split; [exact Hge |].
  repeat split; vm_compute; reflexivity.
Qed.

Lemma calcBrightness_binary64_greys_witness :
  (Binary64.calcBrightness 18 18 18 <=? 18)%float = true /\
  (next_down 18 <=? Binary64.calcBrightness 18 18 18)%float = true.
Proof.
  refine ((fun H => conj (proj1 H) (proj1 (proj2 H)))
            (@calcBrightness_binary64_greys 18 _)).
  unfold raw_level. lia.
Defined.

(** X21.  [normalizeRayHits] in binary64.  The hits [[5, 60]] and
    [[6, 240]] give the weight 0.25 and the position 5.75, both exactly.
    Two hits of the same level 18 at the depths 0 and 1 give the weight
    [0.9999999999999998], since [x * (1 / x)] rounds below 1, and the
    position [2^-52] instead of the depth 0.  A list of one hit has no
    second hit to read. *)
Theorem normalizeRayHits_binary64 :
  Binary64.hitWeight (5, 60)%float (6, 240)%float = 0.25%float /\
  Binary64.normalizeRayHits [(5, 60); (6, 240)]%float = Some 5.75%float /\
  Binary64.hitWeight (0, 18)%float (1, 18)%float
    = 0x1.ffffffffffffep-1%float /\
  Binary64.normalizeRayHits [(0, 18); (1, 18)]%float = Some 0x1p-52%float /\
  Binary64.normalizeRayHits [(0, 18)]%float = None.
Proof.
  repeat split; vm_compute; reflexivity.
Qed.

(** X27.  [normalizeRayHits] in binary64 on two hits at the depths 0 and 1
    whose levels are integers of [[1, 255]]: the weight lies in [(0, 1]]
    and the position in [[0, 1]]; for equal levels the position is 0 or
    [2^-52]. *)
Theorem normalizeRayHits_binary64_levels (l0 l1 : Z) :
  (1 <= l0 <= 255)%Z -> (1 <= l1 <= 255)%Z ->
  let a := (0%float, Binary64.ofZ l0) in
  let b := (1%float, Binary64.ofZ l1) in
  exists p : float,
    Binary64.normalizeRayHits [a; b] = Some p /\
    (0 <? Binary64.hitWeight a b)%float = true /\
    (Binary64.hitWeight a b <=? 1)%float = true /\
    (0 <=? p)%float = true /\
    (p <=? 1)%float = true /\
    (l0 = l1 -> ((p =? 0) || (p =? 0x1p-52))%float = true).
Proof.
  intros H0 H1. cbv zeta.
  set (Q := fun l0 l1 : Z =>
              let a := (0%float, Binary64.ofZ l0) in
              let b := (1%float, Binary64.ofZ l1) in
              match Binary64.normalizeRayHits [a; b] with
              | Some p =>
                  ((0 <? Binary64.hitWeight a b)%float
                   && (Binary64.hitWeight a b <=? 1)%float
                   && (0 <=? p)%float && (p <=? 1)%float
                   && (negb (l0 =? l1)%Z
                       || (p =? 0)%float || (p =? 0x1p-52)%float))%bool
              | None => false
              end).
  set (P := fun l0 : Z =>
              forallb (fun l1 => (l0 <? 1)%Z || (l1 <? 1)%Z || Q l0 l1)
                      (map Z.of_nat (List.seq 0 256))).
  assert (Hall : forallb P (map Z.of_nat (List.seq 0 256)) = true)
    by (vm_compute; reflexivity).
  assert (HP : P l0 = true) by (apply (forallb_below P 256 Hall); lia).
  unfold P in HP.
  assert (HQ : ((l0 <? 1)%Z || (l1 <? 1)%Z || Q l0 l1)%bool = true).
  { apply (forallb_below _ 256 HP). lia. }
  assert (E0 : (l0 <? 1)%Z = false) by (apply Z.ltb_ge; lia).
  assert (E1 : (l1 <? 1)%Z = false) by (apply Z.ltb_ge; lia).
  rewrite E0, E1 in HQ. cbn [orb] in HQ. unfold Q in HQ. cbv zeta in HQ.
  destruct (Binary64.normalizeRayHits
              [(0%float, Binary64.ofZ l0); (1%float, Binary64.ofZ l1)])
    as [p |]; [| discriminate].
  exists p. split; [reflexivity |].
  repeat (apply andb_true_iff in HQ; destruct HQ as [HQ ?]).
  repeat split; try assumption.
  intros ->. rewrite Z.eqb_refl in *. cbn [negb orb] in *. assumption.
Qed.

Lemma normalizeRayHits_binary64_levels_witness :
  exists p : float,
    Binary64.normalizeRayHits [(0, 18); (1, 18)]%float = Some p /\
    (p <=? 1)%float = true.
Proof.
  destruct (@normalizeRayHits_binary64_levels 18 18) as (p & Ep & _ & _ & _ & Hp & _);
    [lia | lia |].
  exists p. split; [exact Ep | exact Hp].
Defined.

(** X25.  [correctScanRatio] in binary64: with the scan length 2, the
    target ratio [2^-1074], the least positive float, and the canvas ratio
    2, the quotient of the two ratios underflows to 0, and the corrected
    scan length is 0 although all three numbers are positive. *)
Theorem correctScanRatio_binary64_underflow :
  (0 <? 0x1p-1074)%float = true /\
  (0x1p-1074 / 2)%float = 0%float /\
  Binary64.correctScanRatio 2 0x1p-1074 2 true = 0%float /\
  Binary64.correctScanRatio 2 0x1p-1074 2 false = 2%float /\
  Binary64.correctScanRatio 2 2 2 true = 2%float.
Proof.
  repeat split; vm_compute; reflexivity.
Qed.

(** ** Instances on the canvas with a black frame *)

Lemma getPixelAt_in_bounds_witness :
  exists ev : event,
    _getPixelAt narrow_target_detector (ofZ 3) (ofZ 4) []
      = (Ok (pixelBytes narrow_target_image 3 4), [ev]) /\
    is_pixel_read ev /\
    List.length (pixelBytes narrow_target_image 3 4) = 3%nat.
Proof.
  apply (@getPixelAt_in_bounds bare_platform narrow_target_detector
           narrow_target_image 3 4 []).
  - reflexivity.
  - repeat split; discriminate || reflexivity.
  - split; discriminate || reflexivity.
  - split; discriminate || reflexivity.
Defined.

Lemma getPixelAt_row_wrap_witness :
  fst (_getPixelAt narrow_target_detector (ofZ (3 + 20)) (ofZ 4) [])
  = fst (_getPixelAt narrow_target_detector (ofZ 3) (ofZ (4 + 1)) []).
Proof.
  apply (@getPixelAt_row_wrap bare_platform narrow_target_detector
           narrow_target_image 3 4 []).
  reflexivity.
Defined.

Lemma getPixelFromEdge_in_canvas_witness :
  (0 <= 5 < 20)%Z /\
  (0 <= 18 < 20)%Z /\
  fst (_getPixelFromEdge narrow_target_detector SIDE_BOTTOM (ofZ 5) (ofZ 1) [])
    = Ok (Some (pixelBytes narrow_target_image 5 18)) /\
  List.length (pixelBytes narrow_target_image 5 18) = 3%nat.
Proof.
  apply (@getPixelFromEdge_in_canvas bare_platform narrow_target_detector
           narrow_target_image SIDE_BOTTOM 5 1 [] 20 20).
  - reflexivity.
  - repeat split; discriminate || reflexivity.
  - reflexivity.
  - split; discriminate || reflexivity.
  - split; discriminate || reflexivity.
Defined.

Lemma getBgBrightness_uniform_corner_witness :
  exists (bg : num) (evs : list event),
    _getBgBrightness narrow_target_detector [] = (Ok bg, evs ++ []) /\
    bg ≡ calcBrightness (byte_value x00) (byte_value x00) (byte_value x00) /\
    List.length evs = 4%nat /\
    Forall is_pixel_read evs.
Proof.
  apply (@getBgBrightness_uniform_corner bare_platform narrow_target_detector
           narrow_target_image x00 x00 x00 []).
  - reflexivity.
  - repeat split; discriminate || reflexivity.
  - discriminate.
  - discriminate.
  - intros x y Hx Hy.
    assert (Ex : x = 0%Z \/ x = 1%Z) by lia.
    assert (Ey : y = 0%Z \/ y = 1%Z) by lia.
    destruct Ex as [-> | ->], Ey as [-> | ->]; repeat split.
Defined.

Lemma castEdgeRay_reads_at_most_maxDepth_witness :
  exists (r : option num) (evs : list event),
    _castEdgeRay narrow_target_detector (ofZ 10) SIDE_TOP 8 (ofZ 0) []
      = (Ok r, evs ++ []) /\
    Forall is_pixel_read evs /\
    (List.length evs <= Z.to_nat 8)%nat /\
    (r = None -> List.length evs = Z.to_nat 8) /\
    ((8 <= 1)%Z -> r = None).
Proof.
  apply (@castEdgeRay_reads_at_most_maxDepth bare_platform
           narrow_target_detector narrow_target_image SIDE_TOP).
  - reflexivity.
  - left. reflexivity.
Defined.
